(** * PortfolioApp: the gallery / lightbox controller and its media manifest

    A shallow embedding of [js/media-data.js] and [js/gallery.js] (the eager
    controller) together with their optimized, lazy-loading twins.  The two
    controllers differ in [renderSlides], [initSwiper] and
    [handleVideoAutoplay] only; the embedding carries a [Variant] switch in
    exactly those three places.

    JavaScript values are modelled as the code uses them:
    - numbers that index arrays are integers ([Z]) or [NaN]; a property that
      was never assigned is [undefined];
    - strings are [string]; [media.type === filter] is string equality;
    - a DOM lookup that finds nothing is [None];
    - a statement that dereferences [null] or [undefined] raises a
      [TypeError]; assignments made before the raise persist.

    Methods are state transformers that return or throw ([M]); the page is
    driven by the events [bindEvents] and the carousel configuration
    subscribe to.  The Swiper carousel is a third-party widget: of it the
    model keeps the identity of each instance, which instances are attached
    to the container (a new instance attaches itself, [destroy] detaches it
    for good, and only an attached instance emits events), the real index
    and the [swiper-slide-active] class.  Without [loop] the slide nodes
    stay where the renderer put them and the node at the real index is the
    active one; with [loop] the carousel moves or duplicates nodes to close
    the ring, and the arrangement it picks is an input of the model
    ([loopLayout]), not something the model decides.  The
    loading-progress timer of [hideLoader] touches the loader and its
    progress bar only; it is modelled on its own in [Loader]. *)

From Stdlib Require Import QArith Lqa.
From Stdlib Require Import ZArith List String Ascii Bool Lia.
From Stdlib Require Import Sorting.Sorted Sorting.Permutation.
Import ListNotations.
Open Scope string_scope.
Open Scope Z_scope.

(* ================================================================== *)
(** ** JavaScript numbers, as far as the controller needs them *)

Module JS.

(** A number that is an integer, or [NaN].  Integers far below 2^53 are
    exact in IEEE doubles; negative zero behaves as zero both as an array
    index and under [+], so it is not distinguished. *)
Inductive num : Type :=
| Num (z : Z)
| NaN.

(** A property read: [None] is [undefined]. *)
Definition value := option num.

(** [ToNumber]: [undefined] becomes [NaN]. *)
Definition toNumber (v : value) : num :=
  match v with
  | Some n => n
  | None => NaN
  end.

(** [a + b] on numbers. *)
Definition add (a b : num) : num :=
  match a, b with
  | Num x, Num y => Num (x + y)
  | _, _ => NaN
  end.

(** [a - b] on numbers. *)
Definition sub (a b : num) : num :=
  match a, b with
  | Num x, Num y => Num (x - y)
  | _, _ => NaN
  end.

(** [a % b]: the remainder takes the sign of the dividend ([Z.rem]); a
    zero divisor gives [NaN]. *)
Definition rem (a b : num) : num :=
  match a, b with
  | Num x, Num y => if y =? 0 then NaN else Num (Z.rem x y)
  | _, _ => NaN
  end.

(** [arr[i]]: an own element when [i] is an integer in range, otherwise
    [undefined]. *)
Definition index {A : Type} (arr : list A) (i : num) : option A :=
  match i with
  | Num z => if z <? 0 then None else nth_error arr (Z.to_nat z)
  | NaN => None
  end.

(** [arr.length]. *)
Definition length {A : Type} (arr : list A) : num :=
  Num (Z.of_nat (List.length arr)).

(** [arr.slice(0, n)]. *)
Definition slice0 {A : Type} (n : nat) (arr : list A) : list A :=
  firstn n arr.

(** The sign test [Array.prototype.sort] applies to a comparator result:
    a [NaN] result counts as [+0]. *)
Definition sortCompare (v : num) : Z :=
  match v with
  | Num z => z
  | NaN => 0
  end.

(** [arr.sort(cmp)].  The sort is stable; for a consistent comparator the
    result is the unique stable ordering, computed here by insertion from
    the right: an element goes in front of the first element it does not
    have to follow. *)
Section Sort.
Context {A : Type} (cmp : A -> A -> num).

Fixpoint insert (x : A) (l : list A) : list A :=
  match l with
  | [] => [x]
  | y :: ys =>
      if sortCompare (cmp x y) <=? 0 then x :: y :: ys
      else y :: insert x ys
  end.

Fixpoint sort (l : list A) : list A :=
  match l with
  | [] => []
  | x :: xs => insert x (sort xs)
  end.
End Sort.

End JS.

(* ================================================================== *)
(** ** [new Date(s)] for the date-only form [YYYY-MM-DD] *)

Module DateJS.

Definition digit (c : ascii) : option Z :=
  let n := Z.of_nat (nat_of_ascii c) in
  if (48 <=? n) && (n <=? 57) then Some (n - 48) else None.

Fixpoint digits (acc : Z) (cs : list ascii) : option Z :=
  match cs with
  | [] => Some acc
  | c :: cs' =>
      match digit c with
      | Some d => digits (10 * acc + d) cs'
      | None => None
      end
  end.

Definition isLeap (y : Z) : bool :=
  ((y mod 4 =? 0) && negb (y mod 100 =? 0)) || (y mod 400 =? 0).

Definition daysInMonth (y m : Z) : Z :=
  if m =? 2 then (if isLeap y then 29 else 28)
  else if (m =? 4) || (m =? 6) || (m =? 9) || (m =? 11) then 30
  else 31.

(** Day number of a civil date, day 0 being 1970-01-01. *)
Definition dayNumber (y m d : Z) : Z :=
  let y' := if m <=? 2 then y - 1 else y in
  let era := y' / 400 in
  let yoe := y' - era * 400 in
  let mp := (m + 9) mod 12 in
  let doy := (153 * mp + 2) / 5 + d - 1 in
  let doe := yoe * 365 + yoe / 4 - yoe / 100 + doy in
  era * 146097 + doe - 719468.

Definition msPerDay : Z := 86400000.

(** The time value of [new Date(s)]: UTC midnight of the day for a
    well-formed [YYYY-MM-DD], [NaN] (an invalid date) for anything else
    and for element values out of range. *)
Definition parse (s : string) : JS.num :=
  match list_ascii_of_string s with
  | [y1; y2; y3; y4; h1; m1; m2; h2; d1; d2] =>
      if (Ascii.eqb h1 "-"%char) && (Ascii.eqb h2 "-"%char) then
        match digits 0 [y1; y2; y3; y4], digits 0 [m1; m2], digits 0 [d1; d2] with
        | Some y, Some m, Some d =>
            if (1 <=? m) && (m <=? 12) && (1 <=? d) && (d <=? daysInMonth y m)
            then JS.Num (dayNumber y m d * msPerDay)
            else JS.NaN
        | _, _, _ => JS.NaN
        end
      else JS.NaN
  | _ => JS.NaN
  end.

Definition valid (s : string) : bool :=
  match parse s with
  | JS.Num _ => true
  | JS.NaN => false
  end.

End DateJS.

(* ================================================================== *)
(** ** js/media-data.js *)

(** An entry of [ALL_MEDIA]: the manifest entry spread into a fresh object
    with its [type] tag.  A [poster] that is [null] or absent is [None]
    (the only use, [media.poster ? ... : ''], tests truthiness). *)
Record MediaItem : Type := mkMedia {
  src : string;
  date : string;
  poster : option string;
  type : string
}.

(** An entry of [MEDIA_DATA.images] or [MEDIA_DATA.videos]. *)
Record ManifestEntry : Type := mkEntry {
  e_src : string;
  e_date : string;
  e_poster : option string
}.

Record Manifest : Type := mkManifest {
  images : list ManifestEntry;
  videos : list ManifestEntry
}.

(** [{ ...entry, type: t }] *)
Definition tag (t : string) (e : ManifestEntry) : MediaItem :=
  mkMedia (e_src e) (e_date e) (e_poster e) t.

(** [[...images.map(tag 'image'), ...videos.map(tag 'video')]] *)
Definition combined (M : Manifest) : list MediaItem :=
  (map (tag "image") (images M) ++ map (tag "video") (videos M))%list.

(** [(a, b) => new Date(b.date) - new Date(a.date)] *)
Definition newestFirst (a b : MediaItem) : JS.num :=
  JS.sub (DateJS.parse (date b)) (DateJS.parse (date a)).

(** [const ALL_MEDIA = [...].sort(newestFirst)] *)
Definition ALL_MEDIA (M : Manifest) : list MediaItem :=
  JS.sort newestFirst (combined M).

(** The time value of an item's date, [0] standing in for an invalid one. *)
Definition timeOf (m : MediaItem) : Z :=
  JS.sortCompare (DateJS.parse (date m)).

Definition validDates (l : list MediaItem) : Prop :=
  Forall (fun m => DateJS.valid (date m) = true) l.

(* ================================================================== *)
(** ** The document

    The page markup is not among the sources.  The document of the model
    consists of the mount points [cacheDOM] looks up, each present or
    absent, and of the nodes the controller creates below them.  The slide
    container [#swiperWrapper] is the wrapper of the [.gallery-swiper]
    carousel, so the videos selected by ['.gallery-swiper video'] are the
    videos of the slides; [#lightboxContent] lies outside the carousel. *)

(** A [<video>] element.  [v_paused] is the [paused] attribute: the element
    is playing exactly when it is [false].  [v_canAutoplay] is the flag the
    browser consults before it honours [autoplay]; [pause()] and [play()]
    clear it. *)
Record Video : Type := mkVideo {
  v_src : option string;
  v_dataSrc : option string;
  v_poster : option string;
  v_muted : bool;
  v_loop : bool;
  v_preload : string;
  v_controls : bool;
  v_autoplay : bool;
  v_canAutoplay : bool;
  v_paused : bool;
  v_currentTime : Z
}.

(** An [<img>] element; [alt] is [`Photo ${n}`], kept as the number [n]. *)
Record Img : Type := mkImg {
  i_src : option string;
  i_dataSrc : option string;
  i_altPhoto : JS.num
}.

(** [.video-overlay]: its inline [style.opacity] ([""] while unset). *)
Record Overlay : Type := mkOverlay {
  opacity : string
}.

Inductive SlideContent : Type :=
| VideoSlide (v : Video) (o : Overlay)
| ImageSlide (i : Img).

(** A [.swiper-slide]: [dataset.index], the [swiper-slide-active] class the
    carousel maintains, and the content. *)
Record Slide : Type := mkSlide {
  s_index : Z;
  s_active : bool;
  s_content : SlideContent
}.

Inductive LightboxChild : Type :=
| LbVideo (v : Video)
| LbImg (i : Img).

(** A [.tab-btn]: [dataset.filter] and the [active] class. *)
Record TabBtn : Type := mkTab {
  tb_filter : option string;
  tb_active : bool
}.

(** Text of a counter element: what the markup held, or a number assigned
    to [textContent]. *)
Inductive Text : Type :=
| Markup
| Shown (n : Z).

Record Doc : Type := mkDoc {
  innerWidth : Z;
  (* elements with a [hidden] class: [Some hidden] when present *)
  heroCover : option bool;
  galleryView : option bool;
  (* buttons: present or not *)
  enterGalleryBtn : bool;
  backToHeroBtn : bool;
  lightboxClose : bool;
  lightboxPrev : bool;
  lightboxNext : bool;
  (* gallery *)
  swiperWrapper : option (list Slide);
  tabButtons : list TabBtn;
  currentIndexEl : option Text;
  totalItemsEl : option Text;
  (* lightbox: [Some active] when present; children of the content node *)
  lightbox : option bool;
  lightboxContent : option (list LightboxChild);
  bodyOverflow : string
}.

(** The carousel instance held in [this.swiper]. *)
Record SwiperInst : Type := mkSwiper {
  sw_id : nat;
  sw_loop : bool;
  sw_realIndex : Z
}.

Inductive View : Type := hero | gallery.

(** Callbacks waiting in [setTimeout]. *)
Inductive Timer : Type :=
| RevealGallery
| RevealHero.

(** The fields of [this]. *)
Record App : Type := mkApp {
  currentView : View;
  currentFilter : option string;
  filteredMedia : list MediaItem;
  swiper : option SwiperInst;
  lightboxIndex : JS.value
}.

(** Everything a handler can read or write: the module binding
    [ALL_MEDIA], the controller, the document, pending timers, the
    browser's verdict on a [play()] request, and the carousel library: the
    next instance identity, the identities of the instances attached to
    the container (constructed and not destroyed), and the arrangement
    [loopLayout k nodes] a looping carousel at real index [k] gives the
    slide nodes, active class included. *)
Record World : Type := mkWorld {
  catalog : list MediaItem;
  app : App;
  doc : Doc;
  timers : list Timer;
  autoplayAllowed : bool;
  nextSwiperId : nat;
  liveSwipers : list nat;
  loopLayout : Z -> list Slide -> list Slide
}.

Inductive Variant : Type := Eager | Optimized.

(* ------------------------------------------------------------------ *)
(** *** Field updates *)

Definition upd_app (f : App -> App) (w : World) : World :=
  mkWorld (catalog w) (f (app w)) (doc w) (timers w) (autoplayAllowed w)
    (nextSwiperId w) (liveSwipers w) (loopLayout w).

Definition upd_doc (f : Doc -> Doc) (w : World) : World :=
  mkWorld (catalog w) (app w) (f (doc w)) (timers w) (autoplayAllowed w)
    (nextSwiperId w) (liveSwipers w) (loopLayout w).

Definition set_timers (t : list Timer) (w : World) : World :=
  mkWorld (catalog w) (app w) (doc w) t (autoplayAllowed w)
    (nextSwiperId w) (liveSwipers w) (loopLayout w).

Definition set_nextSwiperId (n : nat) (w : World) : World :=
  mkWorld (catalog w) (app w) (doc w) (timers w) (autoplayAllowed w)
    n (liveSwipers w) (loopLayout w).

Definition set_liveSwipers (l : list nat) (w : World) : World :=
  mkWorld (catalog w) (app w) (doc w) (timers w) (autoplayAllowed w)
    (nextSwiperId w) l (loopLayout w).

Definition set_currentView (v : View) (a : App) : App :=
  mkApp v (currentFilter a) (filteredMedia a) (swiper a) (lightboxIndex a).

Definition set_currentFilter (f : option string) (a : App) : App :=
  mkApp (currentView a) f (filteredMedia a) (swiper a) (lightboxIndex a).

Definition set_filteredMedia (l : list MediaItem) (a : App) : App :=
  mkApp (currentView a) (currentFilter a) l (swiper a) (lightboxIndex a).

Definition set_swiper (s : option SwiperInst) (a : App) : App :=
  mkApp (currentView a) (currentFilter a) (filteredMedia a) s (lightboxIndex a).

Definition set_lightboxIndex (i : JS.value) (a : App) : App :=
  mkApp (currentView a) (currentFilter a) (filteredMedia a) (swiper a) i.

Definition set_heroCover (h : option bool) (d : Doc) : Doc :=
  mkDoc (innerWidth d) h (galleryView d) (enterGalleryBtn d) (backToHeroBtn d)
    (lightboxClose d) (lightboxPrev d) (lightboxNext d) (swiperWrapper d)
    (tabButtons d) (currentIndexEl d) (totalItemsEl d) (lightbox d)
    (lightboxContent d) (bodyOverflow d).

Definition set_galleryView (g : option bool) (d : Doc) : Doc :=
  mkDoc (innerWidth d) (heroCover d) g (enterGalleryBtn d) (backToHeroBtn d)
    (lightboxClose d) (lightboxPrev d) (lightboxNext d) (swiperWrapper d)
    (tabButtons d) (currentIndexEl d) (totalItemsEl d) (lightbox d)
    (lightboxContent d) (bodyOverflow d).

Definition set_swiperWrapper (s : option (list Slide)) (d : Doc) : Doc :=
  mkDoc (innerWidth d) (heroCover d) (galleryView d) (enterGalleryBtn d)
    (backToHeroBtn d) (lightboxClose d) (lightboxPrev d) (lightboxNext d) s
    (tabButtons d) (currentIndexEl d) (totalItemsEl d) (lightbox d)
    (lightboxContent d) (bodyOverflow d).

Definition set_tabButtons (t : list TabBtn) (d : Doc) : Doc :=
  mkDoc (innerWidth d) (heroCover d) (galleryView d) (enterGalleryBtn d)
    (backToHeroBtn d) (lightboxClose d) (lightboxPrev d) (lightboxNext d)
    (swiperWrapper d) t (currentIndexEl d) (totalItemsEl d) (lightbox d)
    (lightboxContent d) (bodyOverflow d).

Definition set_currentIndexEl (t : option Text) (d : Doc) : Doc :=
  mkDoc (innerWidth d) (heroCover d) (galleryView d) (enterGalleryBtn d)
    (backToHeroBtn d) (lightboxClose d) (lightboxPrev d) (lightboxNext d)
    (swiperWrapper d) (tabButtons d) t (totalItemsEl d) (lightbox d)
    (lightboxContent d) (bodyOverflow d).

Definition set_totalItemsEl (t : option Text) (d : Doc) : Doc :=
  mkDoc (innerWidth d) (heroCover d) (galleryView d) (enterGalleryBtn d)
    (backToHeroBtn d) (lightboxClose d) (lightboxPrev d) (lightboxNext d)
    (swiperWrapper d) (tabButtons d) (currentIndexEl d) t (lightbox d)
    (lightboxContent d) (bodyOverflow d).

Definition set_lightbox (l : option bool) (d : Doc) : Doc :=
  mkDoc (innerWidth d) (heroCover d) (galleryView d) (enterGalleryBtn d)
    (backToHeroBtn d) (lightboxClose d) (lightboxPrev d) (lightboxNext d)
    (swiperWrapper d) (tabButtons d) (currentIndexEl d) (totalItemsEl d) l
    (lightboxContent d) (bodyOverflow d).

Definition set_lightboxContent (c : option (list LightboxChild)) (d : Doc) : Doc :=
  mkDoc (innerWidth d) (heroCover d) (galleryView d) (enterGalleryBtn d)
    (backToHeroBtn d) (lightboxClose d) (lightboxPrev d) (lightboxNext d)
    (swiperWrapper d) (tabButtons d) (currentIndexEl d) (totalItemsEl d)
    (lightbox d) c (bodyOverflow d).

Definition set_bodyOverflow (o : string) (d : Doc) : Doc :=
  mkDoc (innerWidth d) (heroCover d) (galleryView d) (enterGalleryBtn d)
    (backToHeroBtn d) (lightboxClose d) (lightboxPrev d) (lightboxNext d)
    (swiperWrapper d) (tabButtons d) (currentIndexEl d) (totalItemsEl d)
    (lightbox d) (lightboxContent d) o.

(* ------------------------------------------------------------------ *)
(** *** Handlers: state plus exceptions *)

(** The only exception the controller can raise by itself: a property read
    on [null] or [undefined].  The payload names the receiver. *)
Inductive Exn : Type :=
| TypeError (receiver : string).

Inductive Outcome (A : Type) : Type :=
| Returned (a : A)
| Thrown (e : Exn).
Arguments Returned {A} a.
Arguments Thrown {A} e.

(** A method body: it runs on a world, returns or throws, and leaves a
    world either way. *)
Definition M (A : Type) : Type := World -> Outcome A * World.

Definition ret {A : Type} (a : A) : M A := fun w => (Returned a, w).

Definition bind {A B : Type} (m : M A) (k : A -> M B) : M B :=
  fun w =>
    match m w with
    | (Returned a, w') => k a w'
    | (Thrown e, w') => (Thrown e, w')
    end.

Definition throw {A : Type} (e : Exn) : M A := fun w => (Thrown e, w).

Definition get {A : Type} (f : World -> A) : M A := fun w => (Returned (f w), w).

Definition modify (f : World -> World) : M unit := fun w => (Returned tt, f w).

(** [x.prop] where [x] came from a lookup that may have found nothing. *)
Definition deref {A : Type} (receiver : string) (x : option A) : M A :=
  match x with
  | Some a => ret a
  | None => throw (TypeError receiver)
  end.

Definition when (b : bool) (m : M unit) : M unit :=
  if b then m else ret tt.

Declare Scope js_scope.
Delimit Scope js_scope with js.
Notation "x <- m ;; k" := (bind m (fun x => k))
  (at level 61, m at next level, right associativity) : js_scope.
Notation "m ;; k" := (bind m (fun _ => k))
  (at level 61, right associativity) : js_scope.
Open Scope js_scope.

(** The world a handler leaves behind, and whether it threw. *)
Definition exec {A : Type} (m : M A) (w : World) : World := snd (m w).

Definition throws {A : Type} (m : M A) (w : World) : bool :=
  match fst (m w) with
  | Returned _ => false
  | Thrown _ => true
  end.

(* ================================================================== *)
(** ** Browser and carousel primitives *)

(** Truthiness of a string-valued attribute or property. *)
Definition truthy (s : option string) : bool :=
  match s with
  | Some x => negb (String.eqb x "")
  | None => false
  end.

(** [t === f] for a string [t] and a possibly undefined [f]. *)
Definition strictEq (t : string) (f : option string) : bool :=
  match f with
  | Some x => String.eqb t x
  | None => false
  end.

(** [arr.map((x, i) => f(i, x))], the index counted from [i0]. *)
Fixpoint mapi_from {A B : Type} (i0 : Z) (f : Z -> A -> B) (l : list A) : list B :=
  match l with
  | [] => []
  | x :: xs => f i0 x :: mapi_from (i0 + 1) f xs
  end.

Definition mapi {A B : Type} (f : Z -> A -> B) (l : list A) : list B :=
  mapi_from 0 f l.

Fixpoint update_nth {A : Type} (n : nat) (f : A -> A) (l : list A) : list A :=
  match l, n with
  | [], _ => []
  | x :: xs, O => f x :: xs
  | x :: xs, S n' => x :: update_nth n' f xs
  end.

Definition v_set_paused (p : bool) (v : Video) : Video :=
  mkVideo (v_src v) (v_dataSrc v) (v_poster v) (v_muted v) (v_loop v)
    (v_preload v) (v_controls v) (v_autoplay v) (v_canAutoplay v) p
    (v_currentTime v).

Definition v_set_canAutoplay (c : bool) (v : Video) : Video :=
  mkVideo (v_src v) (v_dataSrc v) (v_poster v) (v_muted v) (v_loop v)
    (v_preload v) (v_controls v) (v_autoplay v) c (v_paused v)
    (v_currentTime v).

Definition v_set_currentTime (t : Z) (v : Video) : Video :=
  mkVideo (v_src v) (v_dataSrc v) (v_poster v) (v_muted v) (v_loop v)
    (v_preload v) (v_controls v) (v_autoplay v) (v_canAutoplay v) (v_paused v) t.

Definition v_set_src (s : option string) (v : Video) : Video :=
  mkVideo s (v_dataSrc v) (v_poster v) (v_muted v) (v_loop v)
    (v_preload v) (v_controls v) (v_autoplay v) (v_canAutoplay v) (v_paused v)
    (v_currentTime v).

(** [v.pause()] *)
Definition pause (v : Video) : Video :=
  v_set_paused true (v_set_canAutoplay false v).

(** The promise [v.play()] returns. *)
Inductive Promise : Type := Fulfilled | Rejected.

(** [v.play()]: when the browser allows playback the element leaves the
    paused state and the promise fulfils; when the autoplay policy denies
    it the element is left as it was and the promise rejects. *)
Definition play (allowed : bool) (v : Video) : Video * Promise :=
  if allowed then (v_set_paused false (v_set_canAutoplay false v), Fulfilled)
  else (v, Rejected).

(** [promise.catch(() => { })]: a rejection is consumed, nothing is
    raised. *)
Definition catch_discard (p : Promise) : M unit := ret tt.

(** The browser honouring [autoplay] once the media can play. *)
Definition autoplayStarts (v : Video) : Video :=
  if v_autoplay v && v_canAutoplay v && v_paused v
  then v_set_paused false v else v.

Definition playing (v : Video) : bool := negb (v_paused v).

(** [const video = content.querySelector('video'); if (video) video.pause()]
    over the children of the content node. *)
Fixpoint pauseFirstVideo (l : list LightboxChild) : list LightboxChild :=
  match l with
  | [] => []
  | LbVideo v :: rest => LbVideo (pause v) :: rest
  | c :: rest => c :: pauseFirstVideo rest
  end.

(** A carousel that does not loop keeps [swiper-slide-active] on the slide
    at its real index and on no other. *)
Definition markActive (k : Z) (slides : list Slide) : list Slide :=
  mapi (fun i s => mkSlide (s_index s) (i =? k) (s_content s)) slides.

Definition clearActive (slides : list Slide) : list Slide :=
  map (fun s => mkSlide (s_index s) false (s_content s)) slides.

Definition on_slides (f : list Slide -> list Slide) : World -> World :=
  upd_doc (fun d => set_swiperWrapper (option_map f (swiperWrapper d)) d).

(** The slide nodes as a carousel at real index [k] leaves them.  Without
    [loop] the nodes keep their places and the one at position [k] is the
    active one.  With [loop] the carousel rearranges the nodes; the
    arrangement, active class included, is the library's. *)
Definition arrange (loop : bool) (k : Z) (w : World) : World :=
  on_slides (if loop then loopLayout w k else markActive k) w.

(** Whether instance [s] is attached to the container. *)
Definition isLive (s : SwiperInst) (w : World) : bool :=
  existsb (Nat.eqb (sw_id s)) (liveSwipers w).

(** [new Swiper('.gallery-swiper', { loop, ... })]: a fresh instance, which
    attaches itself to the container and lays the slides out at real
    index 0. *)
Definition newSwiper (loop : bool) : M SwiperInst :=
  id <- get nextSwiperId ;;
  modify (set_nextSwiperId (S id)) ;;
  modify (fun w => set_liveSwipers (id :: liveSwipers w) w) ;;
  modify (arrange loop 0) ;;
  ret (mkSwiper id loop 0).

(** What [destroy] leaves of the registry: [s] is attached no more. *)
Definition detach (s : SwiperInst) (w : World) : World :=
  set_liveSwipers
    (filter (fun i => negb (Nat.eqb i (sw_id s))) (liveSwipers w)) w.

(** [swiper.destroy(true, true)]: the instance releases its listeners and
    detaches from the container, and the classes the carousel put on the
    slides of the container are removed.  On an instance destroyed before,
    the call does nothing. *)
Definition swiperDestroy (s : SwiperInst) : M unit :=
  live <- get (isLive s) ;;
  when live
    (modify (detach s) ;;
     modify (on_slides clearActive)).

(** [document.querySelector('.swiper-slide-active')]: position and node of
    the first slide carrying the class. *)
Fixpoint findActive (n : nat) (slides : list Slide) : option (nat * Slide) :=
  match slides with
  | [] => None
  | s :: rest => if s_active s then Some (n, s) else findActive (S n) rest
  end.

Definition slidesOf (w : World) : list Slide :=
  match swiperWrapper (doc w) with
  | Some l => l
  | None => []
  end.

(* ================================================================== *)
(** ** js/gallery.js: class PortfolioApp *)

Section Controller.

Variable variant : Variant.

(** [constructor]: the controller fields over a loaded catalogue. *)
Definition construct (all : list MediaItem) : App :=
  mkApp hero (Some "image")
    (filter (fun m => strictEq (type m) (Some "image")) all) None None.

Definition updateCounter (index : Z) : M unit :=
  modify (upd_doc (fun d =>
    match currentIndexEl d with
    | Some _ => set_currentIndexEl (Some (Shown (index + 1))) d
    | None => d
    end)) ;;
  total <- get (fun w => Z.of_nat (List.length (filteredMedia (app w)))) ;;
  modify (upd_doc (fun d =>
    match totalItemsEl d with
    | Some _ => set_totalItemsEl (Some (Shown total)) d
    | None => d
    end)).

(** The slide built for [media] at position [index]. *)
Definition slideFor (index : Z) (media : MediaItem) : Slide :=
  mkSlide index false
    (if String.eqb (type media) "video" then
       match variant with
       | Eager =>
           VideoSlide
             (mkVideo (Some (src media)) None None true true "metadata"
                false false true true 0)
             (mkOverlay "")
       | Optimized =>
           VideoSlide
             (mkVideo None (Some (src media))
                (if truthy (poster media) then poster media else None)
                true true "none" false false true true 0)
             (mkOverlay "")
       end
     else
       match variant with
       | Eager => ImageSlide (mkImg (Some (src media)) None (JS.Num (index + 1)))
       | Optimized => ImageSlide (mkImg None (Some (src media)) (JS.Num (index + 1)))
       end).

(** [isMobile] *)
Definition isMobile (w : World) : bool := innerWidth (doc w) <? 768.

(** [mediaToRender]: the eager controller renders [this.filteredMedia]
    itself. *)
Definition mediaToRender (w : World) : list MediaItem :=
  match variant with
  | Eager => filteredMedia (app w)
  | Optimized =>
      if isMobile w then JS.slice0 20 (filteredMedia (app w))
      else filteredMedia (app w)
  end.

Definition renderSlides : M unit :=
  wrapper <- get (fun w => swiperWrapper (doc w)) ;;
  match wrapper with
  | None => ret tt
  | Some _ =>
      modify (upd_doc (set_swiperWrapper (Some []))) ;;
      toRender <- get mediaToRender ;;
      modify (on_slides (fun old => (old ++ mapi slideFor toRender)%list)) ;;
      updateCounter 0 ;;
      match variant with
      | Eager => ret tt
      | Optimized =>
          modify (upd_doc (fun d =>
            match totalItemsEl d with
            | Some _ =>
                set_totalItemsEl (Some (Shown (Z.of_nat (List.length toRender)))) d
            | None => d
            end))
      end
  end.

Definition pauseAllVideos : M unit :=
  (* '.gallery-swiper video': pause and rewind *)
  modify (on_slides (map (fun s =>
    match s_content s with
    | VideoSlide v o =>
        mkSlide (s_index s) (s_active s)
          (VideoSlide (v_set_currentTime 0 (pause v)) o)
    | ImageSlide _ => s
    end))) ;;
  (* '.video-overlay': show *)
  modify (on_slides (map (fun s =>
    match s_content s with
    | VideoSlide v o =>
        mkSlide (s_index s) (s_active s) (VideoSlide v (mkOverlay "1"))
    | ImageSlide _ => s
    end))).

(** The optimized controller resolves the deferred source first. *)
Definition resolveSrc (v : Video) : Video :=
  match variant with
  | Eager => v
  | Optimized =>
      if negb (truthy (v_src v)) && truthy (v_dataSrc v)
      then v_set_src (v_dataSrc v) v else v
  end.

Definition handleVideoAutoplay : M unit :=
  pauseAllVideos ;;
  activeSlide <- get (fun w => findActive 0 (slidesOf w)) ;;
  match activeSlide with
  | Some (k, s) =>
      match s_content s with
      | VideoSlide v o =>
          allowed <- get autoplayAllowed ;;
          let (v', promise) := play allowed (resolveSrc v) in
          modify (on_slides (update_nth k (fun s0 =>
            mkSlide (s_index s0) (s_active s0) (VideoSlide v' o)))) ;;
          catch_discard promise ;;
          (* the slide holds an overlay: hide it *)
          modify (on_slides (update_nth k (fun s0 =>
            match s_content s0 with
            | VideoSlide v0 _ =>
                mkSlide (s_index s0) (s_active s0) (VideoSlide v0 (mkOverlay "0"))
            | ImageSlide _ => s0
            end)))
      | ImageSlide _ => ret tt
      end
  | None => ret tt
  end.

Definition initSwiper : M unit :=
  match variant with
  | Eager => ret tt
  | Optimized =>
      mobile <- get isMobile ;;
      len <- get (fun w => Z.of_nat (List.length (filteredMedia (app w)))) ;;
      let maxSlides := if mobile then 20 else len in
      when (mobile && (maxSlides <? len))
        (wrapper <- get (fun w => swiperWrapper (doc w)) ;;
         slides <- deref "swiperWrapper" wrapper ;;
         modify (upd_doc (set_swiperWrapper
           (Some (firstn (Z.to_nat maxSlides) slides)))))
  end ;;
  len <- get (fun w => Z.of_nat (List.length (filteredMedia (app w)))) ;;
  sw <- newSwiper (match variant with
                   | Eager => 3 <? len
                   | Optimized => false
                   end) ;;
  modify (upd_app (set_swiper (Some sw))) ;;
  handleVideoAutoplay.

Definition setTimeout (t : Timer) : M unit :=
  modify (fun w => set_timers (timers w ++ [t])%list w).

Definition showGallery : M unit :=
  modify (upd_app (set_currentView gallery)) ;;
  h <- get (fun w => heroCover (doc w)) ;;
  _ <- deref "heroCover" h ;;
  modify (upd_doc (set_heroCover (Some true))) ;;
  setTimeout RevealGallery.

Definition showHero : M unit :=
  modify (upd_app (set_currentView hero)) ;;
  g <- get (fun w => galleryView (doc w)) ;;
  _ <- deref "galleryView" g ;;
  modify (upd_doc (set_galleryView (Some true))) ;;
  setTimeout RevealHero ;;
  pauseAllVideos.

(** The bodies of the two [setTimeout] callbacks. *)
Definition runTimer (t : Timer) : M unit :=
  match t with
  | RevealGallery =>
      g <- get (fun w => galleryView (doc w)) ;;
      _ <- deref "galleryView" g ;;
      modify (upd_doc (set_galleryView (Some false))) ;;
      sw <- get (fun w => swiper (app w)) ;;
      match sw with
      | None => renderSlides ;; initSwiper
      | Some _ => ret tt
      end
  | RevealHero =>
      h <- get (fun w => heroCover (doc w)) ;;
      _ <- deref "heroCover" h ;;
      modify (upd_doc (set_heroCover (Some false)))
  end.

(** [handleTabSwitch(btn)], [btn] being the [n]-th of [this.tabButtons]
    with [dataset.filter = flt]. *)
Definition handleTabSwitch (n : nat) (flt : option string) : M unit :=
  modify (upd_doc (fun d =>
    set_tabButtons (map (fun b => mkTab (tb_filter b) false) (tabButtons d)) d)) ;;
  modify (upd_doc (fun d =>
    set_tabButtons (update_nth n (fun b => mkTab (tb_filter b) true) (tabButtons d)) d)) ;;
  modify (upd_app (set_currentFilter flt)) ;;
  modify (fun w => upd_app (set_filteredMedia
    (filter (fun m => strictEq (type m) flt) (catalog w))) w) ;;
  renderSlides ;;
  sw <- get (fun w => swiper (app w)) ;;
  match sw with
  | Some s => swiperDestroy s
  | None => ret tt
  end ;;
  initSwiper.

Definition openLightbox (index : JS.num) : M unit :=
  modify (upd_app (set_lightboxIndex (Some index))) ;;
  media <- get (fun w => JS.index (filteredMedia (app w)) index) ;;
  content <- get (fun w => lightboxContent (doc w)) ;;
  _ <- deref "lightboxContent" content ;;
  modify (upd_doc (set_lightboxContent (Some []))) ;;
  m <- deref "media" media ;;
  (if String.eqb (type m) "video" then
     modify (upd_doc (set_lightboxContent (Some
       [LbVideo (mkVideo (Some (src m)) None None false false ""
                   true true true true 0)])))
   else
     modify (upd_doc (set_lightboxContent (Some
       [LbImg (mkImg (Some (src m)) None (JS.add index (JS.Num 1)))])))) ;;
  lb <- get (fun w => lightbox (doc w)) ;;
  _ <- deref "lightbox" lb ;;
  modify (upd_doc (set_lightbox (Some true))) ;;
  modify (upd_doc (set_bodyOverflow "hidden")) ;;
  pauseAllVideos.

Definition closeLightbox : M unit :=
  lb <- get (fun w => lightbox (doc w)) ;;
  _ <- deref "lightbox" lb ;;
  modify (upd_doc (set_lightbox (Some false))) ;;
  modify (upd_doc (set_bodyOverflow "")) ;;
  content <- get (fun w => lightboxContent (doc w)) ;;
  children <- deref "lightboxContent" content ;;
  modify (upd_doc (set_lightboxContent (Some (pauseFirstVideo children)))) ;;
  handleVideoAutoplay.

Definition navigateLightbox (direction : JS.num) : M unit :=
  total <- get (fun w => JS.length (filteredMedia (app w))) ;;
  modify (fun w => upd_app (set_lightboxIndex (Some
    (JS.rem (JS.add (JS.add (JS.toNumber (lightboxIndex (app w))) direction) total)
       total))) w) ;;
  i <- get (fun w => JS.toNumber (lightboxIndex (app w))) ;;
  openLightbox i.

Definition handleKeyboard (key : string) : M unit :=
  lb <- get (fun w => lightbox (doc w)) ;;
  view <- get (fun w => currentView (app w)) ;;
  match lb with
  | Some true =>
      when (String.eqb key "Escape") closeLightbox ;;
      when (String.eqb key "ArrowLeft") (navigateLightbox (JS.Num (-1))) ;;
      when (String.eqb key "ArrowRight") (navigateLightbox (JS.Num 1))
  | _ =>
      match view with
      | hero =>
          if String.eqb key "Enter" then showGallery else ret tt
      | gallery =>
          if String.eqb key "Escape" then showHero else ret tt
      end
  end.

End Controller.

(* ================================================================== *)
(** ** The event loop

    What [bindEvents] and the carousel configuration subscribe to.  A
    listener attached with [?.] exists only when its element does.  The
    two carousel events are those of the instance the controller holds,
    and it emits them only while it is attached.  An exception that
    escapes a listener is reported by the browser; the world keeps what the
    listener had written. *)

Inductive Event : Type :=
| Click_enterGalleryBtn
| Click_backToHeroBtn
| Click_tab (n : nat)
| Click_lightboxClose
| Click_lightboxPrev
| Click_lightboxNext
| Click_lightboxBackdrop
| KeyDown (key : string)
| TimerFires
| Swiper_slideChange (realIndex : nat)
| Swiper_click (n : nat)
| Lightbox_autoplay
| Resize (width : Z).

Definition set_innerWidth (x : Z) (d : Doc) : Doc :=
  mkDoc x (heroCover d) (galleryView d) (enterGalleryBtn d)
    (backToHeroBtn d) (lightboxClose d) (lightboxPrev d) (lightboxNext d)
    (swiperWrapper d) (tabButtons d) (currentIndexEl d) (totalItemsEl d)
    (lightbox d) (lightboxContent d) (bodyOverflow d).

Section EventLoop.

Variable variant : Variant.

Definition handle (e : Event) : M unit :=
  match e with
  | Click_enterGalleryBtn =>
      present <- get (fun w => enterGalleryBtn (doc w)) ;;
      when present showGallery
  | Click_backToHeroBtn =>
      present <- get (fun w => backToHeroBtn (doc w)) ;;
      when present showHero
  | Click_tab n =>
      btn <- get (fun w => nth_error (tabButtons (doc w)) n) ;;
      match btn with
      | Some b => handleTabSwitch variant n (tb_filter b)
      | None => ret tt
      end
  | Click_lightboxClose =>
      present <- get (fun w => lightboxClose (doc w)) ;;
      when present (closeLightbox variant)
  | Click_lightboxPrev =>
      present <- get (fun w => lightboxPrev (doc w)) ;;
      when present (navigateLightbox (JS.Num (-1)))
  | Click_lightboxNext =>
      present <- get (fun w => lightboxNext (doc w)) ;;
      when present (navigateLightbox (JS.Num 1))
  | Click_lightboxBackdrop =>
      lb <- get (fun w => lightbox (doc w)) ;;
      match lb with
      | Some _ => closeLightbox variant
      | None => ret tt
      end
  | KeyDown key => handleKeyboard variant key
  | TimerFires =>
      pending <- get timers ;;
      match pending with
      | t :: rest => modify (set_timers rest) ;; runTimer variant t
      | [] => ret tt
      end
  | Swiper_slideChange realIndex =>
      sw <- get (fun w => swiper (app w)) ;;
      n <- get (fun w => List.length (slidesOf w)) ;;
      match sw with
      | Some s =>
          live <- get (isLive s) ;;
          when (live && Nat.ltb realIndex n)
            (modify (upd_app (set_swiper
               (Some (mkSwiper (sw_id s) (sw_loop s) (Z.of_nat realIndex))))) ;;
             modify (arrange (sw_loop s) (Z.of_nat realIndex)) ;;
             updateCounter (Z.of_nat realIndex) ;;
             handleVideoAutoplay variant)
      | None => ret tt
      end
  | Swiper_click n =>
      sw <- get (fun w => swiper (app w)) ;;
      slide <- get (fun w => nth_error (slidesOf w) n) ;;
      match sw, slide with
      | Some c, Some s =>
          live <- get (isLive c) ;;
          when (live && s_active s) (openLightbox (JS.Num (s_index s)))
      | _, _ => ret tt
      end
  | Lightbox_autoplay =>
      modify (upd_doc (fun d =>
        set_lightboxContent
          (option_map (map (fun c =>
             match c with
             | LbVideo v => LbVideo (autoplayStarts v)
             | LbImg i => LbImg i
             end)) (lightboxContent d)) d))
  | Resize width => modify (upd_doc (set_innerWidth width))
  end.

Definition dispatch (w : World) (e : Event) : World := exec (handle e) w.

Definition run (w : World) (trace : list Event) : World :=
  fold_left dispatch trace w.

(** The page after the module has loaded and the controller was
    constructed over document [d], in a browser whose autoplay policy
    answers [allowed] and with a carousel library whose loop arrangement
    is [layout]. *)
Definition load (M : Manifest) (d : Doc) (allowed : bool)
           (layout : Z -> list Slide -> list Slide) : World :=
  mkWorld (ALL_MEDIA M) (construct (ALL_MEDIA M)) d [] allowed 0 [] layout.

Definition Reachable (w0 w : World) : Prop :=
  exists trace, run w0 trace = w.

End EventLoop.

(* ------------------------------------------------------------------ *)
(** *** Observations *)

Definition galleryVideos (w : World) : list Video :=
  flat_map (fun s =>
    match s_content s with
    | VideoSlide v _ => [v]
    | ImageSlide _ => []
    end) (slidesOf w).

Definition lightboxVideos (w : World) : list Video :=
  match lightboxContent (doc w) with
  | Some children =>
      flat_map (fun c =>
        match c with
        | LbVideo v => [v]
        | LbImg _ => []
        end) children
  | None => []
  end.

(** Every [<video>] of the document. *)
Definition documentVideos (w : World) : list Video :=
  (galleryVideos w ++ lightboxVideos w)%list.

Definition playingCount (w : World) : nat :=
  List.length (filter playing (documentVideos w)).

(* ------------------------------------------------------------------ *)
(** *** A small page to run the controller on *)

Module Sample.

(** The manifest of the specification's scenario, with one more video. *)
Definition manifest : Manifest :=
  mkManifest
    [ mkEntry "a.jpg" "2024-01-01" None; mkEntry "b.jpg" "2025-01-01" None ]
    [ mkEntry "c.mp4" "2024-06-01" None; mkEntry "d.mp4" "2023-03-05" (Some "d.jpg") ].

(** A page with every mount point in place, hero shown. *)
Definition page (width : Z) : Doc :=
  mkDoc width (Some false) (Some true) true true true true true
    (Some []) [mkTab (Some "image") true; mkTab (Some "video") false]
    (Some Markup) (Some Markup) (Some false) (Some []) "".

(** A carousel library that closes the ring of a looping carousel by
    moving the last two nodes in front of the first; the active class goes
    to the node rendered at the real index. *)
Definition ring (k : Z) (nodes : list Slide) : list Slide :=
  map (fun s => mkSlide (s_index s) (s_index s =? k) (s_content s))
    (skipn (List.length nodes - 2) nodes ++
     firstn (List.length nodes - 2) nodes)%list.

Definition start (width : Z) : World := load manifest (page width) true ring.

End Sample.

(* ------------------------------------------------------------------ *)
(** *** The two manifests of the repository *)

(** [MEDIA_DATA] of js/media-data.js (the [profile] entry, which nothing reads, left out). *)
Definition MEDIA_DATA : Manifest :=
mkManifest
[
  mkEntry "assets/media/instagram/2025-11-08_12-11-37_UTC_1.jpg" "2025-11-08" None;
  mkEntry "assets/media/instagram/2025-11-08_12-11-37_UTC_2.jpg" "2025-11-08" None;
  mkEntry "assets/media/instagram/2025-11-08_12-11-37_UTC_3.jpg" "2025-11-08" None;
  mkEntry "assets/media/instagram/2025-11-08_12-11-37_UTC_4.jpg" "2025-11-08" None;
  mkEntry "assets/media/instagram/2025-11-08_12-11-37_UTC_5.jpg" "2025-11-08" None;
  mkEntry "assets/media/instagram/2025-11-08_12-11-37_UTC_6.jpg" "2025-11-08" None;
  mkEntry "assets/media/instagram/2025-11-08_12-11-37_UTC_7.jpg" "2025-11-08" None;
  mkEntry "assets/media/instagram/2025-09-08_16-42-50_UTC_1.jpg" "2025-09-08" None;
  mkEntry "assets/media/instagram/2025-09-08_16-42-50_UTC_2.jpg" "2025-09-08" None;
  mkEntry "assets/media/instagram/2025-09-08_16-42-50_UTC_4.jpg" "2025-09-08" None;
  mkEntry "assets/media/instagram/2025-09-08_16-42-50_UTC_5.jpg" "2025-09-08" None;
  mkEntry "assets/media/instagram/2025-09-08_16-42-50_UTC_6.jpg" "2025-09-08" None;
  mkEntry "assets/media/instagram/2025-09-08_16-42-50_UTC_7.jpg" "2025-09-08" None;
  mkEntry "assets/media/instagram/2025-07-06_14-09-53_UTC_1.jpg" "2025-07-06" None;
  mkEntry "assets/media/instagram/2025-07-06_14-09-53_UTC_2.jpg" "2025-07-06" None;
  mkEntry "assets/media/instagram/2025-05-19_16-11-23_UTC_1.jpg" "2025-05-19" None;
  mkEntry "assets/media/instagram/2025-05-19_16-11-23_UTC_3.jpg" "2025-05-19" None;
  mkEntry "assets/media/instagram/2025-05-19_16-11-23_UTC_4.jpg" "2025-05-19" None;
  mkEntry "assets/media/instagram/2025-05-19_16-11-23_UTC_5.jpg" "2025-05-19" None;
  mkEntry "assets/media/instagram/2025-04-14_09-26-31_UTC_1.jpg" "2025-04-14" None;
  mkEntry "assets/media/instagram/2025-04-14_09-26-31_UTC_2.jpg" "2025-04-14" None;
  mkEntry "assets/media/instagram/2025-04-14_09-26-31_UTC_4.jpg" "2025-04-14" None;
  mkEntry "assets/media/instagram/2025-04-14_09-26-31_UTC_6.jpg" "2025-04-14" None;
  mkEntry "assets/media/instagram/2024-12-31_08-49-28_UTC_1.jpg" "2024-12-31" None;
  mkEntry "assets/media/instagram/2024-12-31_08-49-28_UTC_2.jpg" "2024-12-31" None;
  mkEntry "assets/media/instagram/2024-12-31_08-49-28_UTC_3.jpg" "2024-12-31" None;
  mkEntry "assets/media/instagram/2024-12-31_08-49-28_UTC_4.jpg" "2024-12-31" None;
  mkEntry "assets/media/instagram/2024-12-31_08-49-28_UTC_5.jpg" "2024-12-31" None;
  mkEntry "assets/media/instagram/2024-12-31_08-49-28_UTC_6.jpg" "2024-12-31" None;
  mkEntry "assets/media/instagram/2024-12-31_08-49-28_UTC_7.jpg" "2024-12-31" None;
  mkEntry "assets/media/instagram/2024-12-31_08-49-28_UTC_8.jpg" "2024-12-31" None;
  mkEntry "assets/media/instagram/2024-07-16_05-22-22_UTC_1.jpg" "2024-07-16" None;
  mkEntry "assets/media/instagram/2024-07-16_05-22-22_UTC_2.jpg" "2024-07-16" None;
  mkEntry "assets/media/instagram/2024-07-16_05-22-22_UTC_3.jpg" "2024-07-16" None;
  mkEntry "assets/media/instagram/2024-07-16_05-22-22_UTC_5.jpg" "2024-07-16" None;
  mkEntry "assets/media/instagram/2024-07-16_05-22-22_UTC_6.jpg" "2024-07-16" None;
  mkEntry "assets/media/instagram/2024-07-08_06-53-37_UTC_1.jpg" "2024-07-08" None;
  mkEntry "assets/media/instagram/2024-07-08_06-53-37_UTC_2.jpg" "2024-07-08" None;
  mkEntry "assets/media/instagram/2024-07-08_06-53-37_UTC_3.jpg" "2024-07-08" None;
  mkEntry "assets/media/instagram/2024-07-08_06-53-37_UTC_4.jpg" "2024-07-08" None;
  mkEntry "assets/media/instagram/2024-07-08_06-53-37_UTC_5.jpg" "2024-07-08" None;
  mkEntry "assets/media/instagram/2024-07-08_06-53-37_UTC_6.jpg" "2024-07-08" None;
  mkEntry "assets/media/instagram/2024-06-05_10-35-02_UTC_1.jpg" "2024-06-05" None;
  mkEntry "assets/media/instagram/2024-06-05_10-35-02_UTC_2.jpg" "2024-06-05" None;
  mkEntry "assets/media/instagram/2024-04-19_09-25-08_UTC_1.jpg" "2024-04-19" None;
  mkEntry "assets/media/instagram/2024-04-19_09-25-08_UTC_2.jpg" "2024-04-19" None;
  mkEntry "assets/media/instagram/2024-04-19_09-25-08_UTC_3.jpg" "2024-04-19" None;
  mkEntry "assets/media/instagram/2024-04-19_09-25-08_UTC_4.jpg" "2024-04-19" None;
  mkEntry "assets/media/instagram/2024-04-19_09-25-08_UTC_5.jpg" "2024-04-19" None;
  mkEntry "assets/media/instagram/2024-04-19_09-25-08_UTC_6.jpg" "2024-04-19" None;
  mkEntry "assets/media/instagram/2024-03-18_04-05-40_UTC_1.jpg" "2024-03-18" None;
  mkEntry "assets/media/instagram/2024-03-18_04-05-40_UTC_2.jpg" "2024-03-18" None;
  mkEntry "assets/media/instagram/2024-03-18_04-05-40_UTC_3.jpg" "2024-03-18" None;
  mkEntry "assets/media/instagram/2024-03-04_05-16-17_UTC_1.jpg" "2024-03-04" None;
  mkEntry "assets/media/instagram/2024-03-04_05-16-17_UTC_2.jpg" "2024-03-04" None;
  mkEntry "assets/media/instagram/2024-03-04_05-16-17_UTC_3.jpg" "2024-03-04" None;
  mkEntry "assets/media/instagram/2024-03-04_05-16-17_UTC_5.jpg" "2024-03-04" None;
  mkEntry "assets/media/instagram/2024-03-04_05-16-17_UTC_7.jpg" "2024-03-04" None;
  mkEntry "assets/media/instagram/2024-02-19_02-47-10_UTC_1.jpg" "2024-02-19" None;
  mkEntry "assets/media/instagram/2024-02-19_02-47-10_UTC_2.jpg" "2024-02-19" None;
  mkEntry "assets/media/instagram/2024-02-19_02-47-10_UTC_3.jpg" "2024-02-19" None;
  mkEntry "assets/media/instagram/2024-02-19_02-47-10_UTC_5.jpg" "2024-02-19" None;
  mkEntry "assets/media/instagram/2023-11-25_01-51-41_UTC_1.jpg" "2023-11-25" None;
  mkEntry "assets/media/instagram/2023-11-25_01-51-41_UTC_2.jpg" "2023-11-25" None;
  mkEntry "assets/media/instagram/2023-11-25_01-51-41_UTC_3.jpg" "2023-11-25" None;
  mkEntry "assets/media/instagram/2023-11-25_01-51-41_UTC_4.jpg" "2023-11-25" None;
  mkEntry "assets/media/instagram/2023-11-25_01-51-41_UTC_5.jpg" "2023-11-25" None;
  mkEntry "assets/media/instagram/2023-11-25_01-51-41_UTC_6.jpg" "2023-11-25" None;
  mkEntry "assets/media/instagram/2023-11-25_01-51-41_UTC_7.jpg" "2023-11-25" None
]
[
  mkEntry "assets/media/instagram/2025-06-15_14-13-35_UTC.mp4" "2025-06-15" None;
  mkEntry "assets/media/instagram/2025-09-08_16-42-50_UTC_3.mp4" "2025-09-08" None;
  mkEntry "assets/media/instagram/2025-07-06_14-09-53_UTC_3.mp4" "2025-07-06" None;
  mkEntry "assets/media/instagram/2025-07-06_14-09-53_UTC_4.mp4" "2025-07-06" None;
  mkEntry "assets/media/instagram/2025-05-19_16-11-23_UTC_2.mp4" "2025-05-19" None;
  mkEntry "assets/media/instagram/2025-04-14_09-26-31_UTC_3.mp4" "2025-04-14" None;
  mkEntry "assets/media/instagram/2025-04-14_09-26-31_UTC_5.mp4" "2025-04-14" None;
  mkEntry "assets/media/instagram/2024-07-16_05-22-22_UTC_4.mp4" "2024-07-16" None;
  mkEntry "assets/media/instagram/2024-04-19_09-25-08_UTC_7.mp4" "2024-04-19" None;
  mkEntry "assets/media/instagram/2024-03-04_05-16-17_UTC_4.mp4" "2024-03-04" None;
  mkEntry "assets/media/instagram/2024-03-04_05-16-17_UTC_6.mp4" "2024-03-04" None;
  mkEntry "assets/media/instagram/2024-02-19_02-47-10_UTC_4.mp4" "2024-02-19" None
].

(** [MEDIA_DATA] of the optimized media-data module. *)
Definition MEDIA_DATA_optimized : Manifest :=
mkManifest
[
  mkEntry "assets/media/optimized/2025-11-08_12-11-37_UTC_1.webp" "2025-11-08" None;
  mkEntry "assets/media/optimized/2025-11-08_12-11-37_UTC_2.webp" "2025-11-08" None;
  mkEntry "assets/media/optimized/2025-11-08_12-11-37_UTC_3.webp" "2025-11-08" None;
  mkEntry "assets/media/optimized/2025-11-08_12-11-37_UTC_4.webp" "2025-11-08" None;
  mkEntry "assets/media/optimized/2025-11-08_12-11-37_UTC_5.webp" "2025-11-08" None;
  mkEntry "assets/media/optimized/2025-11-08_12-11-37_UTC_6.webp" "2025-11-08" None;
  mkEntry "assets/media/optimized/2025-11-08_12-11-37_UTC_7.webp" "2025-11-08" None;
  mkEntry "assets/media/optimized/2025-09-08_16-42-50_UTC_1.webp" "2025-09-08" None;
  mkEntry "assets/media/optimized/2025-09-08_16-42-50_UTC_2.webp" "2025-09-08" None;
  mkEntry "assets/media/optimized/2025-09-08_16-42-50_UTC_4.webp" "2025-09-08" None;
  mkEntry "assets/media/optimized/2025-09-08_16-42-50_UTC_5.webp" "2025-09-08" None;
  mkEntry "assets/media/optimized/2025-09-08_16-42-50_UTC_6.webp" "2025-09-08" None;
  mkEntry "assets/media/optimized/2025-09-08_16-42-50_UTC_7.webp" "2025-09-08" None;
  mkEntry "assets/media/optimized/2025-07-06_14-09-53_UTC_1.webp" "2025-07-06" None;
  mkEntry "assets/media/optimized/2025-07-06_14-09-53_UTC_2.webp" "2025-07-06" None;
  mkEntry "assets/media/optimized/2025-05-19_16-11-23_UTC_1.webp" "2025-05-19" None;
  mkEntry "assets/media/optimized/2025-05-19_16-11-23_UTC_3.webp" "2025-05-19" None;
  mkEntry "assets/media/optimized/2025-05-19_16-11-23_UTC_4.webp" "2025-05-19" None;
  mkEntry "assets/media/optimized/2025-05-19_16-11-23_UTC_5.webp" "2025-05-19" None;
  mkEntry "assets/media/optimized/2025-04-14_09-26-31_UTC_1.webp" "2025-04-14" None;
  mkEntry "assets/media/optimized/2025-04-14_09-26-31_UTC_2.webp" "2025-04-14" None;
  mkEntry "assets/media/optimized/2025-04-14_09-26-31_UTC_4.webp" "2025-04-14" None;
  mkEntry "assets/media/optimized/2025-04-14_09-26-31_UTC_6.webp" "2025-04-14" None;
  mkEntry "assets/media/optimized/2024-12-31_08-49-28_UTC_1.webp" "2024-12-31" None;
  mkEntry "assets/media/optimized/2024-12-31_08-49-28_UTC_2.webp" "2024-12-31" None;
  mkEntry "assets/media/optimized/2024-12-31_08-49-28_UTC_3.webp" "2024-12-31" None;
  mkEntry "assets/media/optimized/2024-12-31_08-49-28_UTC_4.webp" "2024-12-31" None;
  mkEntry "assets/media/optimized/2024-12-31_08-49-28_UTC_5.webp" "2024-12-31" None;
  mkEntry "assets/media/optimized/2024-12-31_08-49-28_UTC_6.webp" "2024-12-31" None;
  mkEntry "assets/media/optimized/2024-12-31_08-49-28_UTC_7.webp" "2024-12-31" None;
  mkEntry "assets/media/optimized/2024-12-31_08-49-28_UTC_8.webp" "2024-12-31" None;
  mkEntry "assets/media/optimized/2024-07-16_05-22-22_UTC_1.webp" "2024-07-16" None;
  mkEntry "assets/media/optimized/2024-07-16_05-22-22_UTC_2.webp" "2024-07-16" None;
  mkEntry "assets/media/optimized/2024-07-16_05-22-22_UTC_3.webp" "2024-07-16" None;
  mkEntry "assets/media/optimized/2024-07-16_05-22-22_UTC_5.webp" "2024-07-16" None;
  mkEntry "assets/media/optimized/2024-07-16_05-22-22_UTC_6.webp" "2024-07-16" None;
  mkEntry "assets/media/optimized/2024-07-08_06-53-37_UTC_1.webp" "2024-07-08" None;
  mkEntry "assets/media/optimized/2024-07-08_06-53-37_UTC_2.webp" "2024-07-08" None;
  mkEntry "assets/media/optimized/2024-07-08_06-53-37_UTC_3.webp" "2024-07-08" None;
  mkEntry "assets/media/optimized/2024-07-08_06-53-37_UTC_4.webp" "2024-07-08" None;
  mkEntry "assets/media/optimized/2024-07-08_06-53-37_UTC_5.webp" "2024-07-08" None;
  mkEntry "assets/media/optimized/2024-07-08_06-53-37_UTC_6.webp" "2024-07-08" None;
  mkEntry "assets/media/optimized/2024-06-05_10-35-02_UTC_1.webp" "2024-06-05" None;
  mkEntry "assets/media/optimized/2024-06-05_10-35-02_UTC_2.webp" "2024-06-05" None;
  mkEntry "assets/media/optimized/2024-04-19_09-25-08_UTC_1.webp" "2024-04-19" None;
  mkEntry "assets/media/optimized/2024-04-19_09-25-08_UTC_2.webp" "2024-04-19" None;
  mkEntry "assets/media/optimized/2024-04-19_09-25-08_UTC_3.webp" "2024-04-19" None;
  mkEntry "assets/media/optimized/2024-04-19_09-25-08_UTC_4.webp" "2024-04-19" None;
  mkEntry "assets/media/optimized/2024-04-19_09-25-08_UTC_5.webp" "2024-04-19" None;
  mkEntry "assets/media/optimized/2024-04-19_09-25-08_UTC_6.webp" "2024-04-19" None;
  mkEntry "assets/media/optimized/2024-03-18_04-05-40_UTC_1.webp" "2024-03-18" None;
  mkEntry "assets/media/optimized/2024-03-18_04-05-40_UTC_2.webp" "2024-03-18" None;
  mkEntry "assets/media/optimized/2024-03-18_04-05-40_UTC_3.webp" "2024-03-18" None;
  mkEntry "assets/media/optimized/2024-03-04_05-16-17_UTC_1.webp" "2024-03-04" None;
  mkEntry "assets/media/optimized/2024-03-04_05-16-17_UTC_2.webp" "2024-03-04" None;
  mkEntry "assets/media/optimized/2024-03-04_05-16-17_UTC_3.webp" "2024-03-04" None;
  mkEntry "assets/media/optimized/2024-03-04_05-16-17_UTC_5.webp" "2024-03-04" None;
  mkEntry "assets/media/optimized/2024-03-04_05-16-17_UTC_7.webp" "2024-03-04" None;
  mkEntry "assets/media/optimized/2024-02-19_02-47-10_UTC_1.webp" "2024-02-19" None;
  mkEntry "assets/media/optimized/2024-02-19_02-47-10_UTC_2.webp" "2024-02-19" None;
  mkEntry "assets/media/optimized/2024-02-19_02-47-10_UTC_3.webp" "2024-02-19" None;
  mkEntry "assets/media/optimized/2024-02-19_02-47-10_UTC_5.webp" "2024-02-19" None;
  mkEntry "assets/media/optimized/2023-11-25_01-51-41_UTC_1.webp" "2023-11-25" None;
  mkEntry "assets/media/optimized/2023-11-25_01-51-41_UTC_2.webp" "2023-11-25" None;
  mkEntry "assets/media/optimized/2023-11-25_01-51-41_UTC_3.webp" "2023-11-25" None;
  mkEntry "assets/media/optimized/2023-11-25_01-51-41_UTC_4.webp" "2023-11-25" None;
  mkEntry "assets/media/optimized/2023-11-25_01-51-41_UTC_5.webp" "2023-11-25" None;
  mkEntry "assets/media/optimized/2023-11-25_01-51-41_UTC_6.webp" "2023-11-25" None;
  mkEntry "assets/media/optimized/2023-11-25_01-51-41_UTC_7.webp" "2023-11-25" None
]
[
  mkEntry "assets/media/optimized/2025-09-08_16-42-50_UTC_3.mp4" "2025-09-08" (Some "assets/media/thumbnails/2025-09-08_16-42-50_UTC_3_poster.jpg");
  mkEntry "assets/media/optimized/2025-07-06_14-09-53_UTC_3.mp4" "2025-07-06" (Some "assets/media/thumbnails/2025-07-06_14-09-53_UTC_3_poster.jpg");
  mkEntry "assets/media/optimized/2025-07-06_14-09-53_UTC_4.mp4" "2025-07-06" (Some "assets/media/thumbnails/2025-07-06_14-09-53_UTC_4_poster.jpg");
  mkEntry "assets/media/optimized/2025-06-15_14-13-35_UTC.mp4" "2025-06-15" (Some "assets/media/thumbnails/2025-06-15_14-13-35_UTC_poster.jpg");
  mkEntry "assets/media/optimized/2025-05-19_16-11-23_UTC_2.mp4" "2025-05-19" (Some "assets/media/thumbnails/2025-05-19_16-11-23_UTC_2_poster.jpg");
  mkEntry "assets/media/optimized/2025-04-14_09-26-31_UTC_3.mp4" "2025-04-14" (Some "assets/media/thumbnails/2025-04-14_09-26-31_UTC_3_poster.jpg");
  mkEntry "assets/media/optimized/2025-04-14_09-26-31_UTC_5.mp4" "2025-04-14" (Some "assets/media/thumbnails/2025-04-14_09-26-31_UTC_5_poster.jpg");
  mkEntry "assets/media/optimized/2024-07-16_05-22-22_UTC_4.mp4" "2024-07-16" (Some "assets/media/thumbnails/2024-07-16_05-22-22_UTC_4_poster.jpg");
  mkEntry "assets/media/optimized/2024-04-19_09-25-08_UTC_7.mp4" "2024-04-19" (Some "assets/media/thumbnails/2024-04-19_09-25-08_UTC_7_poster.jpg");
  mkEntry "assets/media/optimized/2024-03-04_05-16-17_UTC_4.mp4" "2024-03-04" (Some "assets/media/thumbnails/2024-03-04_05-16-17_UTC_4_poster.jpg");
  mkEntry "assets/media/optimized/2024-03-04_05-16-17_UTC_6.mp4" "2024-03-04" (Some "assets/media/thumbnails/2024-03-04_05-16-17_UTC_6_poster.jpg");
  mkEntry "assets/media/optimized/2024-02-19_02-47-10_UTC_4.mp4" "2024-02-19" (Some "assets/media/thumbnails/2024-02-19_02-47-10_UTC_4_poster.jpg")
].

(* ================================================================== *)
(** ** js/gallery.js: hideLoader

    The progress value is a JavaScript number; the model computes with
    exact rationals.  A draw of [Math.random()] is a rational [r] with
    [0 <= r < 1], supplied by the environment at every tick of the
    interval. *)

Module Loader.

(** What [hideLoader] and its callbacks read and write: the closure
    variable [progress], whether the interval is still installed, the
    [style.width] percentage of [#progressBar] (absent: [None]; not yet
    assigned: [Some None]), the [hidden] class of [#loader] (absent:
    [None]), and the [setTimeout] callbacks not yet run. *)
Record State : Type := mkState {
  progress : Q;
  interval : bool;
  width : option (option Q);
  hidden : option bool;
  hideTimers : nat
}.

(** [hideLoader()] on a page with or without a progress bar, and a loader
    that is absent or carries the [hidden] class or not. *)
Definition hideLoader (bar : bool) (loader : option bool) : State :=
  mkState 0 true (if bar then Some None else None) loader 0.

(** One run of the interval callback, [r] being the value of
    [Math.random()].  A cleared interval does not call back. *)
Definition tick (r : Q) (s : State) : State :=
  if interval s then
    let p := (progress s + (r * 20 + 10))%Q in
    if Qle_bool 100 p then
      mkState 100 false
        (match width s with
         | Some _ => Some (Some 100%Q)
         | None => None
         end)
        (hidden s) (S (hideTimers s))
    else
      mkState p true
        (match width s with
         | Some _ => Some (Some p)
         | None => None
         end)
        (hidden s) (hideTimers s)
  else s.

(** The 400 ms callback: [this.loader?.classList.add('hidden')]. *)
Definition hideNow (s : State) : State :=
  match hideTimers s with
  | O => s
  | S n =>
      mkState (progress s) (interval s) (width s)
        (match hidden s with
         | Some _ => Some true
         | None => None
         end) n
  end.

(** The interval firing once per draw. *)
Definition ticks (rs : list Q) (s : State) : State :=
  fold_left (fun st r => tick r st) rs s.

(** A value [Math.random()] can return. *)
Definition draw (r : Q) : Prop := (0 <= r)%Q /\ (r < 1)%Q.

End Loader.

(* ================================================================== *)
(** * Vocabulary of the properties *)

(** [m] never changes the observation [obs], whether it returns or
    throws. *)
Definition Frame {X : Type} (obs : World -> X) {A : Type} (m : M A) : Prop :=
  forall w, obs (snd (m w)) = obs w.

(** [m] keeps [P], whether it returns or throws. *)
Definition Preserves (P : World -> Prop) {A : Type} (m : M A) : Prop :=
  forall w, P w -> P (snd (m w)).

(** Descending order of a key. *)
Definition newerFirstBy {A : Type} (key : A -> Z) (a b : A) : Prop :=
  key b <= key a.

(** What the rendering and playback methods never touch. *)
Definition dataOf (w : World) :
  list MediaItem * list MediaItem * JS.value * option string * View :=
  (catalog w, filteredMedia (app w), lightboxIndex (app w),
   currentFilter (app w), currentView (app w)).

(** What the lightbox methods never touch. *)
Definition mediaOf (w : World) : list MediaItem * list MediaItem :=
  (catalog w, filteredMedia (app w)).

(** [Selects P l l']: [l'] is [l] with exactly the entries satisfying [P]
    kept, in the order of [l]. *)
Inductive Selects {A : Type} (P : A -> Prop) : list A -> list A -> Prop :=
| Selects_nil : Selects P [] []
| Selects_keep x l l' : P x -> Selects P l l' -> Selects P (x :: l) (x :: l')
| Selects_drop x l l' : ~ P x -> Selects P l l' -> Selects P (x :: l) l'.

(** What [handleTabSwitch] has written when it reaches [renderSlides]. *)
Definition afterFilterUpdate (n : nat) (flt : option string) (w : World) : World :=
  upd_app (set_filteredMedia
             (filter (fun m => strictEq (type m) flt) (catalog w)))
    (upd_app (set_currentFilter flt)
       (upd_doc (fun d =>
          set_tabButtons
            (update_nth n (fun b => mkTab (tb_filter b) true)
               (map (fun b => mkTab (tb_filter b) false) (tabButtons d))) d) w)).

(** The rest of [handleTabSwitch]: render, tear down, rebuild. *)
Definition rebuildCarousel (variant : Variant) : M unit :=
  renderSlides variant ;;
  sw <- get (fun w => swiper (app w)) ;;
  match sw with
  | Some s => swiperDestroy s
  | None => ret tt
  end ;;
  initSwiper variant.

(** What [openLightbox] shows when the lightbox is mounted and the index
    names an item. *)
Definition lightboxChildFor (index : JS.num) (m : MediaItem) : LightboxChild :=
  if String.eqb (type m) "video" then
    LbVideo (mkVideo (Some (src m)) None None false false "" true true true true 0)
  else
    LbImg (mkImg (Some (src m)) None (JS.add index (JS.Num 1))).

(** The filtered view is the catalogue filtered by the current filter. *)
Definition viewConsistent (w : World) : Prop :=
  filteredMedia (app w) =
  filter (fun m => strictEq (type m) (currentFilter (app w))) (catalog w).

(** What only [handleTabSwitch] writes. *)
Definition viewOf (w : World) : list MediaItem * list MediaItem * option string :=
  (catalog w, filteredMedia (app w), currentFilter (app w)).

(** The videos ['.gallery-swiper video'] finds in a slide. *)
Definition videosOfSlide (s : Slide) : list Video :=
  match s_content s with
  | VideoSlide v _ => [v]
  | ImageSlide _ => []
  end.

(** How many carousel videos are playing. *)
Definition playingIn (l : list Slide) : nat :=
  List.length (filter playing (flat_map videosOfSlide l)).

(** What the carousel and the renderer decide about a slide. *)
Definition skeleton (s : Slide) : Z * bool := (s_index s, s_active s).

(** [f] rewrites media state only: indices and active marks stay. *)
Definition KeepsSkeleton (f : list Slide -> list Slide) : Prop :=
  forall l, map skeleton (f l) = map skeleton l.

(** [v.pause(); v.currentTime = 0] on every carousel video. *)
Definition rewindSlide (s : Slide) : Slide :=
  match s_content s with
  | VideoSlide v o =>
      mkSlide (s_index s) (s_active s)
        (VideoSlide (v_set_currentTime 0 (pause v)) o)
  | ImageSlide _ => s
  end.

(** [o.style.opacity = '1'] on every overlay. *)
Definition showOverlay (s : Slide) : Slide :=
  match s_content s with
  | VideoSlide v o =>
      mkSlide (s_index s) (s_active s) (VideoSlide v (mkOverlay "1"))
  | ImageSlide _ => s
  end.

(** The slides [initSwiper] leaves for the carousel. *)
Definition keptSlides variant (w : World) (l : list Slide) : list Slide :=
  match variant with
  | Eager => l
  | Optimized =>
      if isMobile w && (20 <? Z.of_nat (List.length (filteredMedia (app w))))
      then firstn 20 l else l
  end.


(** The [loop] option [initSwiper] passes to the carousel. *)
Definition loopOf variant (view : list MediaItem) : bool :=
  match variant with
  | Eager => 3 <? Z.of_nat (List.length view)
  | Optimized => false
  end.

(** The instances attached to the container once instance [old] (if any)
    has been destroyed. *)
Definition detached (old : option SwiperInst) (w : World) : list nat :=
  match old with
  | Some s => filter (fun i => negb (Nat.eqb i (sw_id s))) (liveSwipers w)
  | None => liveSwipers w
  end.

(** The world [if (this.swiper) this.swiper.destroy(true, true)] leaves,
    [old] being [this.swiper]. *)
Definition afterDestroy (old : option SwiperInst) (w : World) : World :=
  match old with
  | Some s => if isLive s w then on_slides clearActive (detach s w) else w
  | None => w
  end.

(** What a teardown never touches. *)
Definition besideTeardown (w : World) :
  App * nat * option Text * Z * (Z -> list Slide -> list Slide) :=
  (app w, nextSwiperId w, currentIndexEl (doc w), innerWidth (doc w),
   loopLayout w).

(** The only carousel attached to the container, if any is, is the one the
    controller holds. *)
Definition singleCarousel (w : World) : Prop :=
  liveSwipers w = [] \/
  exists s, swiper (app w) = Some s /\ liveSwipers w = [sw_id s].

(** The identity of the current carousel instance was issued before the
    next one to be issued. *)
Definition freshIds (w : World) : Prop :=
  match swiper (app w) with
  | Some s => (sw_id s < nextSwiperId w)%nat
  | None => True
  end.

(** What only [initSwiper] and the carousel itself write. *)
Definition swiperOf (w : World) : option SwiperInst * nat :=
  (swiper (app w), nextSwiperId w).

(** The carousel registry, which only construction and [destroy] write. *)
Definition registryOf (w : World) : option SwiperInst * list nat :=
  (swiper (app w), liveSwipers w).

(** The lightbox holds at most one video, and while its overlay is closed
    that video is paused for good. *)
Definition lightboxQuiet (w : World) : Prop :=
  (List.length (lightboxVideos w) <= 1)%nat /\
  (lightbox (doc w) = Some false ->
   forall v, In v (lightboxVideos w) -> v_paused v = true /\ v_canAutoplay v = false).

(** What only the lightbox methods and the lightbox video write. *)
Definition lightboxOf (w : World) : option bool * option (list LightboxChild) :=
  (lightbox (doc w), lightboxContent (doc w)).

(** The videos among the children of the lightbox content node. *)
Definition videosOfChildren (l : list LightboxChild) : list Video :=
  flat_map (fun c => match c with
                     | LbVideo v => [v]
                     | LbImg _ => []
                     end) l.

(* ------------------------------------------------------------------ *)
(** ** Pages and states the properties are run on *)

Module Lightbox3.

(** Three images, the lightbox open at index 0. *)
Definition manifest : Manifest :=
  mkManifest
    [ mkEntry "a.jpg" "2025-03-01" None; mkEntry "b.jpg" "2025-02-01" None;
      mkEntry "c.jpg" "2025-01-01" None ] [].

Definition opened : World :=
  run Eager (load manifest (Sample.page 1024) true Sample.ring)
    [KeyDown "Enter"; TimerFires; Swiper_click 0].

End Lightbox3.

Module EmptyView.

(** A manifest without videos, the [video] tab selected. *)
Definition manifest : Manifest :=
  mkManifest [ mkEntry "a.jpg" "2025-03-01" None ] [].

Definition videoTab : World :=
  run Eager (load manifest (Sample.page 1024) true Sample.ring)
    [KeyDown "Enter"; TimerFires; Click_tab 1].

End EmptyView.

Module Fifty.

(** Fifty images. *)
Definition manifest : Manifest :=
  mkManifest (repeat (mkEntry "p.jpg" "2025-01-01" None) 50) [].

Definition narrow : World := load manifest (Sample.page 375) true Sample.ring.
Definition wide : World := load manifest (Sample.page 1280) true Sample.ring.

End Fifty.

Module SameTab.

(** The gallery on the image tab, moved to the second slide. *)
Definition before : World :=
  run Eager (Sample.start 1024) [KeyDown "Enter"; TimerFires; Swiper_slideChange 1].

Definition slides : list Slide := Eval vm_compute in slidesOf before.


End SameTab.

Module TwoVideos.

(** The video tab, the lightbox opened on the first video and playing. *)
Definition lightboxPlaying variant : World :=
  run variant (Sample.start 1024)
    [KeyDown "Enter"; TimerFires; Click_tab 1; Swiper_click 0; Lightbox_autoplay].

End TwoVideos.

Module Bare.

(** A page on which none of the mount points exists. *)
Definition page : Doc :=
  mkDoc 1024 None None false false false false false None
    [mkTab (Some "image") true; mkTab (Some "video") false]
    None None None None "".

Definition start : World := load Sample.manifest page true Sample.ring.

(** A page that lacks the gallery section only. *)
Definition noGallery : Doc :=
  mkDoc 1024 (Some false) None true true true true true
    (Some []) [mkTab (Some "image") true; mkTab (Some "video") false]
    (Some Markup) (Some Markup) (Some false) (Some []) "".

(** Fifty images on a phone whose page has the tabs but no slide
    container. *)
Definition phoneNoWrapper : World :=
  load Fifty.manifest
    (mkDoc 375 (Some false) (Some true) true true true true true
       None [mkTab (Some "image") true; mkTab (Some "video") false]
       (Some Markup) (Some Markup) (Some false) (Some []) "")
    true Sample.ring.

End Bare.

Module Denied.

(** The video tab on a browser that rejects [play()]. *)
Definition videoTab variant : World :=
  run variant (load Sample.manifest (Sample.page 1024) false Sample.ring)
    [KeyDown "Enter"; TimerFires; Click_tab 1].

End Denied.

Module Shipped.

(** The shipped catalogues on a phone-sized and on a desktop viewport. *)
Definition phone : World := load MEDIA_DATA_optimized (Sample.page 375) true Sample.ring.
Definition desktop : World := load MEDIA_DATA_optimized (Sample.page 1440) true Sample.ring.
Definition eagerPhone : World := load MEDIA_DATA (Sample.page 375) true Sample.ring.

End Shipped.

(* ================================================================== *)
(** * Properties *)

(** ** What a method leaves alone *)

Section Frames.

Context {X : Type} (obs : World -> X).

Lemma frame_ret {A : Type} (a : A) : Frame obs (ret a).
Proof. intro w. reflexivity. Qed.

Lemma frame_throw {A : Type} (e : Exn) : Frame obs (@throw A e).
Proof. intro w. reflexivity. Qed.

Lemma frame_get {A : Type} (f : World -> A) : Frame obs (get f).
Proof. intro w. reflexivity. Qed.

Lemma frame_modify (f : World -> World) :
  (forall w, obs (f w) = obs w) -> Frame obs (modify f).
Proof. intros H w. apply H. Qed.

Lemma frame_deref {A : Type} (r : string) (x : option A) : Frame obs (deref r x).
Proof. destruct x; intro w; reflexivity. Qed.

Lemma frame_bind {A B : Type} (m : M A) (k : A -> M B) :
  Frame obs m -> (forall a, Frame obs (k a)) -> Frame obs (bind m k).
Proof.
  intros Hm Hk w. unfold bind.
  specialize (Hm w). destruct (m w) as [[a | e] w1]; simpl in *.
  - rewrite Hk. exact Hm.
  - exact Hm.
Qed.

Lemma frame_when (b : bool) (m : M unit) : Frame obs m -> Frame obs (when b m).
Proof. intro H. destruct b; simpl; [exact H | apply frame_ret]. Qed.

Lemma frame_catch (p : Promise) : Frame obs (catch_discard p).
Proof. intro w. reflexivity. Qed.

End Frames.

Create HintDb frames.
Create HintDb obs.
#[export] Hint Unfold lightboxOf : obs.

(** Symbolic execution of a method body: case analysis on whatever a
    [match] is stuck on. *)
Ltac crunch_step :=
  match goal with
  | |- context [match ?x with _ => _ end] =>
      lazymatch x with
      | context [match _ with _ => _ end] => fail
      | _ => destruct x eqn:?
      end
  end.

Ltac crunch := repeat (simpl; crunch_step); simpl.

(** [Frame] goals follow the structure of the method body. *)
Ltac frame_step :=
  first
    [ apply frame_ret | apply frame_throw | apply frame_get | apply frame_deref
    | apply frame_catch
    | apply frame_modify; intros;
      first [ reflexivity | autounfold with obs; crunch; reflexivity ]
    | apply frame_when
    | apply frame_bind; [ | intros ]
    | match goal with
      | |- Frame _ (match ?x with _ => _ end) => destruct x
      end
    | solve [ auto with frames ] ].

Ltac frame := repeat frame_step.

Arguments mediaToRender : simpl never.
Arguments firstn : simpl never.

Lemma updateCounter_data i : Frame dataOf (updateCounter i).
Proof. unfold updateCounter. frame. Qed.
#[export] Hint Resolve updateCounter_data : frames.

Lemma pauseAllVideos_data : Frame dataOf pauseAllVideos.
Proof. unfold pauseAllVideos. frame. Qed.
#[export] Hint Resolve pauseAllVideos_data : frames.

Lemma renderSlides_data variant : Frame dataOf (renderSlides variant).
Proof. unfold renderSlides. frame. Qed.
#[export] Hint Resolve renderSlides_data : frames.

Lemma handleVideoAutoplay_data variant : Frame dataOf (handleVideoAutoplay variant).
Proof. unfold handleVideoAutoplay. frame. Qed.
#[export] Hint Resolve handleVideoAutoplay_data : frames.

Lemma newSwiper_data loop : Frame dataOf (newSwiper loop).
Proof. unfold newSwiper. frame. Qed.
#[export] Hint Resolve newSwiper_data : frames.

Lemma swiperDestroy_data s : Frame dataOf (swiperDestroy s).
Proof. unfold swiperDestroy. frame. Qed.
#[export] Hint Resolve swiperDestroy_data : frames.

Lemma initSwiper_data variant : Frame dataOf (initSwiper variant).
Proof. unfold initSwiper. frame. Qed.
#[export] Hint Resolve initSwiper_data : frames.

Lemma openLightbox_media i : Frame mediaOf (openLightbox i).
Proof.
  unfold openLightbox. frame.
Qed.
#[export] Hint Resolve openLightbox_media : frames.

Lemma navigateLightbox_media d : Frame mediaOf (navigateLightbox d).
Proof. unfold navigateLightbox. frame. Qed.
#[export] Hint Resolve navigateLightbox_media : frames.

Lemma closeLightbox_media variant : Frame mediaOf (closeLightbox variant).
Proof.
  unfold closeLightbox. frame.
Qed.
#[export] Hint Resolve closeLightbox_media : frames.

(* ================================================================== *)
(** ** The catalogue *)

Section SortFacts.

Context {A : Type} (cmp : A -> A -> JS.num).

Lemma insert_perm (x : A) (l : list A) :
  Permutation (x :: l) (JS.insert cmp x l).
Proof.
  induction l as [| y ys IH]; simpl.
  - apply Permutation_refl.
  - destruct (JS.sortCompare (cmp x y) <=? 0).
    + apply Permutation_refl.
    + eapply perm_trans; [apply perm_swap |].
      apply perm_skip. exact IH.
Qed.

Lemma sort_perm (l : list A) : Permutation l (JS.sort cmp l).
Proof.
  induction l as [| x xs IH]; simpl.
  - apply perm_nil.
  - eapply perm_trans; [apply perm_skip; exact IH | apply insert_perm].
Qed.

(** A comparator that is the difference of a key, on the elements that
    carry one. *)
Variable key : A -> Z.
Variable ok : A -> Prop.
Hypothesis cmp_key :
  forall x y, ok x -> ok y -> JS.sortCompare (cmp x y) = key y - key x.

Lemma insert_hd (x y : A) (l : list A) :
  ok x -> ok y -> Forall ok l ->
  key x <= key y -> HdRel (newerFirstBy key) y l -> HdRel (newerFirstBy key) y (JS.insert cmp x l).
Proof.
  intros Hx Hy Hl Hxy Hhd.
  destruct l as [| z zs]; simpl.
  - constructor. exact Hxy.
  - destruct (JS.sortCompare (cmp x z) <=? 0).
    + constructor. exact Hxy.
    + constructor. inversion Hhd; assumption.
Qed.

Lemma insert_sorted (x : A) (l : list A) :
  ok x -> Forall ok l ->
  Sorted (newerFirstBy key) l -> Sorted (newerFirstBy key) (JS.insert cmp x l).
Proof.
  intros Hx Hl Hs. induction Hs as [| y ys Hs IH Hhd]; simpl.
  - repeat constructor.
  - inversion Hl as [| ? ? Hy Hys]; subst.
    destruct (JS.sortCompare (cmp x y) <=? 0) eqn:E.
    + apply Z.leb_le in E. rewrite cmp_key in E by assumption.
      constructor; [constructor; assumption |].
      constructor. unfold newerFirstBy. lia.
    + apply Z.leb_gt in E. rewrite cmp_key in E by assumption.
      constructor; [apply IH; assumption |].
      apply insert_hd; try assumption. lia.
Qed.

Lemma insert_ok (x : A) (l : list A) :
  ok x -> Forall ok l -> Forall ok (JS.insert cmp x l).
Proof.
  intros Hx Hl.
  eapply Permutation_Forall; [apply insert_perm |].
  constructor; assumption.
Qed.

Lemma sort_sorted (l : list A) :
  Forall ok l -> Sorted (newerFirstBy key) (JS.sort cmp l).
Proof.
  induction 1 as [| x xs Hx Hxs IH]; simpl.
  - constructor.
  - apply insert_sorted; [exact Hx | | exact IH].
    eapply Permutation_Forall; [apply sort_perm | exact Hxs].
Qed.

End SortFacts.

Lemma newestFirst_key (x y : MediaItem) :
  DateJS.valid (date x) = true -> DateJS.valid (date y) = true ->
  JS.sortCompare (newestFirst x y) = timeOf y - timeOf x.
Proof.
  unfold DateJS.valid, newestFirst, timeOf.
  destruct (DateJS.parse (date x)), (DateJS.parse (date y));
    simpl; intros; congruence.
Qed.

Lemma combined_types (M : Manifest) (m : MediaItem) :
  In m (combined M) ->
  (type m = "image" /\ In m (map (tag "image") (images M))) \/
  (type m = "video" /\ In m (map (tag "video") (videos M))).
Proof.
  unfold combined. intro H. apply in_app_or in H.
  destruct H as [H | H]; [left | right]; (split; [| exact H]);
    apply in_map_iff in H; destruct H as [e [<- _]]; reflexivity.
Qed.

Lemma validDates_forallb (l : list MediaItem) :
  forallb (fun m => DateJS.valid (date m)) l = true -> validDates l.
Proof.
  intro H. apply Forall_forall. intros m Hm.
  rewrite forallb_forall in H. apply H. exact Hm.
Qed.

(** No listener and no timer callback writes the catalogue. *)
Lemma handle_catalog variant (e : Event) : Frame catalog (handle variant e).
Proof.
  destruct e; unfold handle; frame.
  all: try solve [unfold handleKeyboard, handleTabSwitch, runTimer; frame].
Qed.

Lemma run_catalog variant (trace : list Event) (w : World) :
  catalog (run variant w trace) = catalog w.
Proof.
  unfold run. revert w. induction trace as [| e es IH]; intro w; simpl.
  - reflexivity.
  - rewrite IH. apply handle_catalog.
Qed.

(** C8.  [ALL_MEDIA] is built when the module loads, as the sort of the
    [images] entries tagged ['image'] followed by the [videos] entries tagged
    ['video']; for a manifest whose dates parse, it holds exactly those
    entries, newest date first; and whatever events the page then handles, the
    catalogue the controller reads is still that list. *)
Theorem ALL_MEDIA_sorted_once_never_mutated (M : Manifest) :
  validDates (combined M) ->
  ALL_MEDIA M =
    JS.sort newestFirst
      (map (tag "image") (images M) ++ map (tag "video") (videos M))%list
  /\ Permutation (combined M) (ALL_MEDIA M)
  /\ (forall m, In m (ALL_MEDIA M) ->
        (type m = "image" /\ In m (map (tag "image") (images M))) \/
        (type m = "video" /\ In m (map (tag "video") (videos M))))
  /\ Sorted (fun a b => timeOf b <= timeOf a) (ALL_MEDIA M)
  /\ (forall variant d allowed layout,
        catalog (load M d allowed layout) = ALL_MEDIA M /\
        forall trace,
          catalog (run variant (load M d allowed layout) trace) = ALL_MEDIA M).
Proof.
  intro Hvalid. split; [reflexivity |].
  split; [apply sort_perm |].
  split.
  { intros m Hin. apply combined_types.
    eapply Permutation_in; [apply Permutation_sym, sort_perm | exact Hin]. }
  split.
  { unfold ALL_MEDIA.
    apply (sort_sorted newestFirst timeOf
             (fun m => DateJS.valid (date m) = true)).
    - intros x y Hx Hy. apply newestFirst_key; assumption.
    - exact Hvalid. }
  intros variant d allowed layout. split; [reflexivity |].
  intro trace. rewrite run_catalog. reflexivity.
Qed.

Lemma ALL_MEDIA_sorted_once_never_mutated_witness :
  validDates (combined MEDIA_DATA) /\
  Sorted (fun a b => timeOf b <= timeOf a) (ALL_MEDIA MEDIA_DATA).
Proof.
  assert (H : validDates (combined MEDIA_DATA))
    by (apply validDates_forallb; vm_compute; reflexivity).
  split; [exact H |].
  apply (ALL_MEDIA_sorted_once_never_mutated MEDIA_DATA H).
Defined.

(** The specification's scenario: images dated 2024-01-01 and 2025-01-01, a
    video dated 2024-06-01. *)
Example scenario_catalog :
  let M := mkManifest
             [mkEntry "i1" "2024-01-01" None; mkEntry "i2" "2025-01-01" None]
             [mkEntry "v1" "2024-06-01" None] in
  map date (ALL_MEDIA M) = ["2025-01-01"; "2024-06-01"; "2024-01-01"]
  /\ map date (filteredMedia (construct (ALL_MEDIA M))) = ["2025-01-01"; "2024-01-01"]
  /\ map date (filter (fun m => strictEq (type m) (Some "video")) (ALL_MEDIA M))
     = ["2024-06-01"].
Proof. repeat split. Qed.

(* ================================================================== *)
(** ** Filter switches *)

Lemma filter_Selects {A : Type} (f : A -> bool) (P : A -> Prop) (l : list A) :
  (forall x, f x = true <-> P x) -> Selects P l (filter f l).
Proof.
  intro Hf. induction l as [| x xs IH]; simpl.
  - constructor.
  - destruct (f x) eqn:E.
    + apply Selects_keep; [apply Hf; exact E | exact IH].
    + apply Selects_drop; [| exact IH].
      intro HP. apply Hf in HP. congruence.
Qed.

Lemma Selects_unique {A : Type} (P : A -> Prop) (l a b : list A) :
  Selects P l a -> Selects P l b -> a = b.
Proof.
  intro Ha. revert b.
  induction Ha as [| x l a Hx Ha IH | x l a Hx Ha IH]; intros b Hb;
    inversion Hb; subst; try contradiction.
  - reflexivity.
  - f_equal. apply IH. assumption.
  - apply IH. assumption.
Qed.

Lemma strictEq_spec (t : string) (f : option string) :
  strictEq t f = true <-> f = Some t.
Proof.
  destruct f as [x |]; simpl.
  - rewrite String.eqb_eq. split; congruence.
  - split; discriminate.
Qed.

Lemma exec_modify_then {A : Type} (f : World -> World) (k : M A) (w : World) :
  exec (bind (modify f) (fun _ => k)) w = exec k (f w).
Proof. reflexivity. Qed.

Lemma exec_modify_then_snd {A : Type} (f : World -> World) (k : M A) (w : World) :
  snd (bind (modify f) (fun _ => k) w) = snd (k (f w)).
Proof. reflexivity. Qed.

Lemma handleTabSwitch_split variant n flt w :
  handleTabSwitch variant n flt w =
  rebuildCarousel variant (afterFilterUpdate n flt w).
Proof. reflexivity. Qed.

Lemma rebuildCarousel_data variant : Frame dataOf (rebuildCarousel variant).
Proof. unfold rebuildCarousel. frame. Qed.

Lemma handleTabSwitch_data variant n flt w :
  dataOf (exec (handleTabSwitch variant n flt) w) =
  (catalog w, filter (fun m => strictEq (type m) flt) (catalog w),
   lightboxIndex (app w), flt, currentView (app w)).
Proof.
  unfold exec. rewrite handleTabSwitch_split.
  rewrite rebuildCarousel_data. reflexivity.
Qed.

(** C1.  After [handleTabSwitch] for a button whose filter is [flt], whether
    the rebuild that follows returns or throws, [this.filteredMedia] is the
    catalogue filtered by [type === flt]: exactly the catalogue entries of
    that type, in catalogue order. *)
Theorem handleTabSwitch_filteredView variant (n : nat) (flt : option string) (w : World) :
  let w' := exec (handleTabSwitch variant n flt) w in
  currentFilter (app w') = flt
  /\ catalog w' = catalog w
  /\ filteredMedia (app w') = filter (fun m => strictEq (type m) flt) (catalog w)
  /\ Selects (fun m => flt = Some (type m)) (catalog w) (filteredMedia (app w'))
  /\ (forall l, Selects (fun m => flt = Some (type m)) (catalog w) l ->
                l = filteredMedia (app w')).
Proof.
  intro w'. pose proof (handleTabSwitch_data variant n flt w) as H.
  fold w' in H. unfold dataOf in H. injection H as Hc Hf Hi Hflt Hv.
  assert (S : Selects (fun m => flt = Some (type m)) (catalog w)
                (filter (fun m => strictEq (type m) flt) (catalog w))).
  { apply filter_Selects. intro x. apply strictEq_spec. }
  rewrite Hf.
  split; [exact Hflt |]. split; [exact Hc |]. split; [reflexivity |].
  split; [exact S |].
  intros l Hl. eapply Selects_unique; eassumption.
Qed.

(** The same at the level of the click that causes it. *)
Lemma click_tab_filteredView variant (n : nat) (b : TabBtn) (w : World) :
  nth_error (tabButtons (doc w)) n = Some b ->
  filteredMedia (app (dispatch variant w (Click_tab n))) =
  filter (fun m => strictEq (type m) (tb_filter b)) (catalog w).
Proof.
  intro Hb. unfold dispatch, exec, handle, bind, get. rewrite Hb.
  pose proof (handleTabSwitch_data variant n (tb_filter b) w) as H.
  unfold exec, dataOf in H. injection H as _ Hf _ _ _. exact Hf.
Qed.

(* ================================================================== *)
(** ** Lightbox navigation *)

Lemma openLightbox_index (i : JS.num) (w : World) :
  lightboxIndex (app (exec (openLightbox i) w)) = Some i.
Proof.
  unfold openLightbox. rewrite exec_modify_then.
  match goal with
  | |- context [exec ?rest ?w1] =>
      assert (F : Frame (fun x => lightboxIndex (app x)) rest) by frame;
      unfold exec; rewrite (F w1)
  end.
  reflexivity.
Qed.

(** [navigateLightbox] is [openLightbox] at the wrapped index. *)
Lemma navigateLightbox_open (d : JS.num) (w : World) :
  navigateLightbox d w =
  openLightbox
    (JS.rem (JS.add (JS.add (JS.toNumber (lightboxIndex (app w))) d)
                    (JS.length (filteredMedia (app w))))
            (JS.length (filteredMedia (app w)))) w.
Proof. reflexivity. Qed.

Lemma wrapped_index (i d total : Z) :
  1 <= total -> 0 <= i + d + total ->
  JS.rem (JS.add (JS.add (JS.Num i) (JS.Num d)) (JS.Num total)) (JS.Num total)
  = JS.Num ((i + d + total) mod total).
Proof.
  intros Ht Hpos. simpl.
  destruct (total =? 0) eqn:E; [apply Z.eqb_eq in E; lia |].
  rewrite Z.rem_mod_nonneg by lia. reflexivity.
Qed.

Lemma navigate_index (w : World) (i d : Z) :
  1 <= Z.of_nat (List.length (filteredMedia (app w))) ->
  lightboxIndex (app w) = Some (JS.Num i) ->
  0 <= i + d + Z.of_nat (List.length (filteredMedia (app w))) ->
  lightboxIndex (app (exec (navigateLightbox (JS.Num d)) w)) =
  Some (JS.Num ((i + d + Z.of_nat (List.length (filteredMedia (app w))))
                mod Z.of_nat (List.length (filteredMedia (app w))))).
Proof.
  intros Ht Hi Hpos. unfold exec. rewrite navigateLightbox_open.
  rewrite Hi. simpl JS.toNumber. unfold JS.length.
  rewrite wrapped_index by assumption.
  apply openLightbox_index.
Qed.

Lemma navigate_filteredMedia (d : JS.num) (w : World) :
  filteredMedia (app (exec (navigateLightbox d) w)) = filteredMedia (app w).
Proof.
  pose proof (navigateLightbox_media d w) as H. unfold mediaOf in H.
  unfold exec. congruence.
Qed.

Lemma wrap_next (i total : Z) :
  0 <= i < total ->
  (i + 1 + total) mod total = if i + 1 =? total then 0 else i + 1.
Proof.
  intro H. destruct (i + 1 =? total) eqn:E.
  - apply Z.eqb_eq in E. symmetry.
    apply (Z.mod_unique_pos _ _ 2); lia.
  - apply Z.eqb_neq in E. symmetry.
    apply (Z.mod_unique_pos _ _ 1); lia.
Qed.

Lemma wrap_prev (i total : Z) :
  0 <= i < total ->
  (i + -1 + total) mod total = if i =? 0 then total - 1 else i - 1.
Proof.
  intro H. destruct (i =? 0) eqn:E.
  - apply Z.eqb_eq in E. symmetry.
    apply (Z.mod_unique_pos _ _ 0); lia.
  - apply Z.eqb_neq in E. symmetry.
    apply (Z.mod_unique_pos _ _ 1); lia.
Qed.

Lemma openLightbox_shows (index : JS.num) (w : World) (m : MediaItem)
      (c : list LightboxChild) (a : bool) :
  JS.index (filteredMedia (app w)) index = Some m ->
  lightboxContent (doc w) = Some c ->
  lightbox (doc w) = Some a ->
  fst (openLightbox index w) = Returned tt
  /\ lightboxContent (doc (exec (openLightbox index) w)) = Some [lightboxChildFor index m]
  /\ lightbox (doc (exec (openLightbox index) w)) = Some true
  /\ bodyOverflow (doc (exec (openLightbox index) w)) = "hidden".
Proof.
  intros Hm Hc Ha.
  unfold exec, openLightbox, lightboxChildFor, bind, get, modify, deref.
  simpl. rewrite Hm, Hc. simpl.
  destruct (String.eqb (type m) "video"); simpl; rewrite Ha; simpl;
    repeat split.
Qed.

(** C3.  From [Open(i)] over a filtered view of [total >= 1] items,
    [navigateLightbox(d)] with [d] in {-1, +1} is [openLightbox] at
    [(i + d + total) mod total], an index of the view, and leaves
    [lightboxIndex] there. *)
Theorem navigateLightbox_wraps (w : World) (i d : Z) :
  1 <= Z.of_nat (List.length (filteredMedia (app w))) ->
  lightboxIndex (app w) = Some (JS.Num i) ->
  0 <= i < Z.of_nat (List.length (filteredMedia (app w))) ->
  d = -1 \/ d = 1 ->
  let total := Z.of_nat (List.length (filteredMedia (app w))) in
  let i' := (i + d + total) mod total in
  0 <= i' < total
  /\ navigateLightbox (JS.Num d) w = openLightbox (JS.Num i') w
  /\ lightboxIndex (app (exec (navigateLightbox (JS.Num d)) w)) = Some (JS.Num i')
  /\ (d = -1 -> i' = if i =? 0 then total - 1 else i - 1)
  /\ (d = 1 -> i' = if i + 1 =? total then 0 else i + 1).
Proof.
  intros Ht Hi Hrange Hd total i'.
  split; [apply Z.mod_pos_bound; lia |].
  split.
  { rewrite navigateLightbox_open. rewrite Hi. simpl JS.toNumber.
    unfold JS.length. rewrite wrapped_index by lia. reflexivity. }
  split; [apply navigate_index; [assumption | assumption | lia] |].
  split; intro; subst d; subst i'; [apply wrap_prev | apply wrap_next];
    assumption.
Qed.

Lemma navigateLightbox_wraps_witness :
  lightboxIndex (app Lightbox3.opened) = Some (JS.Num 0)
  /\ List.length (filteredMedia (app Lightbox3.opened)) = 3%nat
  /\ lightboxIndex (app (exec (navigateLightbox (JS.Num (-1))) Lightbox3.opened))
     = Some (JS.Num 2).
Proof.
  split; [reflexivity |]. split; [reflexivity |].
  apply (navigateLightbox_wraps Lightbox3.opened 0 (-1));
    [vm_compute; discriminate | reflexivity | vm_compute; split; [discriminate | reflexivity]
    | left; reflexivity].
Defined.

(** C9.  Over a view of [total >= 1] items and from any index of it,
    [navigateLightbox(+1)] followed by [navigateLightbox(-1)] leaves
    [lightboxIndex] where it was. *)
Theorem navigate_next_then_prev (w : World) (i : Z) :
  1 <= Z.of_nat (List.length (filteredMedia (app w))) ->
  lightboxIndex (app w) = Some (JS.Num i) ->
  0 <= i < Z.of_nat (List.length (filteredMedia (app w))) ->
  lightboxIndex
    (app (exec (navigateLightbox (JS.Num (-1)))
            (exec (navigateLightbox (JS.Num 1)) w)))
  = Some (JS.Num i).
Proof.
  intros Ht Hi Hrange.
  set (total := Z.of_nat (List.length (filteredMedia (app w)))) in *.
  set (w1 := exec (navigateLightbox (JS.Num 1)) w).
  assert (Hfm : filteredMedia (app w1) = filteredMedia (app w))
    by apply navigate_filteredMedia.
  assert (H1 : lightboxIndex (app w1) = Some (JS.Num ((i + 1 + total) mod total)))
    by (apply navigate_index; [assumption | assumption | fold total; lia]).
  assert (Hb : 0 <= (i + 1 + total) mod total < total)
    by (apply Z.mod_pos_bound; lia).
  rewrite (navigate_index w1 ((i + 1 + total) mod total) (-1));
    rewrite ?Hfm; fold total; try assumption; try lia.
  f_equal. f_equal.
  rewrite wrap_prev by assumption. rewrite wrap_next by assumption.
  destruct (i + 1 =? total) eqn:E.
  - apply Z.eqb_eq in E. simpl. lia.
  - apply Z.eqb_neq in E.
    destruct (i + 1 =? 0) eqn:E0; [apply Z.eqb_eq in E0; lia | lia].
Qed.

Lemma navigate_next_then_prev_witness :
  lightboxIndex
    (app (exec (navigateLightbox (JS.Num (-1)))
            (exec (navigateLightbox (JS.Num 1)) Lightbox3.opened)))
  = Some (JS.Num 0).
Proof.
  apply (navigate_next_then_prev Lightbox3.opened 0);
    [vm_compute; discriminate | reflexivity
    | vm_compute; split; [discriminate | reflexivity]].
Defined.

(** The other way round. *)
Lemma navigate_prev_then_next (w : World) (i : Z) :
  1 <= Z.of_nat (List.length (filteredMedia (app w))) ->
  lightboxIndex (app w) = Some (JS.Num i) ->
  0 <= i < Z.of_nat (List.length (filteredMedia (app w))) ->
  lightboxIndex
    (app (exec (navigateLightbox (JS.Num 1))
            (exec (navigateLightbox (JS.Num (-1))) w)))
  = Some (JS.Num i).
Proof.
  intros Ht Hi Hrange.
  set (total := Z.of_nat (List.length (filteredMedia (app w)))) in *.
  set (w1 := exec (navigateLightbox (JS.Num (-1))) w).
  assert (Hfm : filteredMedia (app w1) = filteredMedia (app w))
    by apply navigate_filteredMedia.
  assert (H1 : lightboxIndex (app w1) = Some (JS.Num ((i + -1 + total) mod total)))
    by (apply navigate_index; [assumption | assumption | fold total; lia]).
  assert (Hb : 0 <= (i + -1 + total) mod total < total)
    by (apply Z.mod_pos_bound; lia).
  rewrite (navigate_index w1 ((i + -1 + total) mod total) 1);
    rewrite ?Hfm; fold total; try assumption; try lia.
  f_equal. f_equal.
  rewrite wrap_next by assumption. rewrite wrap_prev by assumption.
  destruct (i =? 0) eqn:E.
  - apply Z.eqb_eq in E.
    replace (total - 1 + 1 =? total) with true by (symmetry; apply Z.eqb_eq; lia).
    lia.
  - apply Z.eqb_neq in E.
    replace (i - 1 + 1 =? total) with false by (symmetry; apply Z.eqb_neq; lia).
    lia.
Qed.

(* ------------------------------------------------------------------ *)
(** *** The empty view *)

Lemma rem_zero (x : JS.num) : JS.rem x (JS.Num 0) = JS.NaN.
Proof. destruct x; reflexivity. Qed.

(** C10.  With an empty filtered view and the lightbox content mounted,
    [navigateLightbox] takes the index modulo zero, stores [NaN] in
    [lightboxIndex], reads [filteredMedia[NaN]], which is [undefined], clears
    the lightbox content and throws on [media.type]; nothing guards the
    case and the overlay is left as it was. *)
Theorem navigateLightbox_empty_view (w : World) (d : JS.num) (c : list LightboxChild) :
  filteredMedia (app w) = [] ->
  lightboxContent (doc w) = Some c ->
  let w' := exec (navigateLightbox d) w in
  JS.rem (JS.add (JS.add (JS.toNumber (lightboxIndex (app w))) d)
                 (JS.length (filteredMedia (app w))))
         (JS.length (filteredMedia (app w))) = JS.NaN
  /\ lightboxIndex (app w') = Some JS.NaN
  /\ JS.index (filteredMedia (app w')) JS.NaN = None
  /\ fst (navigateLightbox d w) = Thrown (TypeError "media")
  /\ lightboxContent (doc w') = Some []
  /\ lightbox (doc w') = lightbox (doc w).
Proof.
  intros Hfm Hc w'. subst w'.
  assert (Hnan : JS.rem (JS.add (JS.add (JS.toNumber (lightboxIndex (app w))) d)
                   (JS.length (filteredMedia (app w))))
                   (JS.length (filteredMedia (app w))) = JS.NaN).
  { rewrite Hfm. apply rem_zero. }
  split; [exact Hnan |].
  unfold exec. rewrite navigateLightbox_open, Hnan.
  unfold openLightbox, bind, get, modify, deref. simpl.
  rewrite Hc. simpl. repeat split.
Qed.

Lemma navigateLightbox_empty_view_witness :
  filteredMedia (app EmptyView.videoTab) = []
  /\ fst (navigateLightbox (JS.Num 1) EmptyView.videoTab) = Thrown (TypeError "media").
Proof.
  split; [reflexivity |].
  apply (navigateLightbox_empty_view EmptyView.videoTab (JS.Num 1) []);
    reflexivity.
Defined.

(** Without the content mount the failure comes one statement earlier;
    either way the call throws. *)
Lemma navigateLightbox_empty_view_throws (w : World) (d : JS.num) :
  filteredMedia (app w) = [] ->
  throws (navigateLightbox d) w = true.
Proof.
  intro Hfm. unfold throws. rewrite navigateLightbox_open.
  rewrite Hfm, rem_zero.
  unfold openLightbox, bind, get, modify, deref. simpl.
  destruct (lightboxContent (doc w)); reflexivity.
Qed.

(* ================================================================== *)
(** ** Slide rendering *)

Lemma mapi_from_length {A B : Type} (f : Z -> A -> B) (l : list A) (i0 : Z) :
  List.length (mapi_from i0 f l) = List.length l.
Proof.
  revert i0. induction l as [| x xs IH]; intro i0; simpl;
    [reflexivity | rewrite IH; reflexivity].
Qed.

Lemma mapi_from_nth {A B : Type} (f : Z -> A -> B) (l : list A) (i0 : Z) (k : nat) :
  nth_error (mapi_from i0 f l) k =
  option_map (f (i0 + Z.of_nat k)) (nth_error l k).
Proof.
  revert i0 k. induction l as [| x xs IH]; intros i0 k.
  - destruct k; reflexivity.
  - destruct k as [| k]; simpl.
    + rewrite Z.add_0_r. reflexivity.
    + rewrite IH. replace (i0 + 1 + Z.of_nat k) with (i0 + Z.pos (Pos.of_succ_nat k)) by lia.
      reflexivity.
Qed.

Lemma firstn_nth_some {A : Type} (n k : nat) (l : list A) (x : A) :
  nth_error (firstn n l) k = Some x -> nth_error l k = Some x.
Proof.
  revert n k. induction l as [| y ys IH]; intros n k H.
  - rewrite firstn_nil in H. exact H.
  - destruct n as [| n]; [destruct k; discriminate |].
    destruct k as [| k]; simpl in *; [exact H | eapply IH; exact H].
Qed.

(** With the slide container mounted, [renderSlides] replaces its children
    by one slide per item of [mediaToRender]. *)
Lemma renderSlides_slides variant (w : World) (old : list Slide) :
  swiperWrapper (doc w) = Some old ->
  fst (renderSlides variant w) = Returned tt /\
  slidesOf (exec (renderSlides variant) w) =
  mapi (slideFor variant) (mediaToRender variant w).
Proof.
  intro Hw. unfold exec, renderSlides, updateCounter, bind, get, modify, slidesOf.
  simpl. rewrite Hw. crunch; split; reflexivity.
Qed.

(** C4, as the code has it.  With the slide container mounted, the
    optimized controller renders the first 20 items of the filtered view
    when [innerWidth < 768] and every item otherwise; the eager controller
    renders every item at any width.  In both, the [k]-th slide carries
    index [k] and is built from the [k]-th item of the filtered view. *)
Theorem renderSlides_cap variant (w : World) (old : list Slide) :
  swiperWrapper (doc w) = Some old ->
  let fm := filteredMedia (app w) in
  let shown :=
    match variant with
    | Optimized => if innerWidth (doc w) <? 768 then firstn 20 fm else fm
    | Eager => fm
    end in
  let rendered := slidesOf (exec (renderSlides variant) w) in
  rendered = mapi (slideFor variant) shown
  /\ List.length rendered =
     match variant with
     | Optimized =>
         if innerWidth (doc w) <? 768 then Nat.min 20 (List.length fm)
         else List.length fm
     | Eager => List.length fm
     end
  /\ (forall k s, nth_error rendered k = Some s ->
        s_index s = Z.of_nat k /\
        exists m, nth_error fm k = Some m /\ s = slideFor variant (Z.of_nat k) m).
Proof.
  intros Hw fm shown rendered.
  assert (E : rendered = mapi (slideFor variant) shown).
  { subst rendered. rewrite (proj2 (renderSlides_slides variant w old Hw)).
    unfold mediaToRender, isMobile, JS.slice0. subst shown fm.
    destruct variant; reflexivity. }
  split; [exact E |]. split.
  - rewrite E. unfold mapi. rewrite mapi_from_length. subst shown.
    destruct variant; [reflexivity |].
    destruct (innerWidth (doc w) <? 768); [apply length_firstn | reflexivity].
  - intros k s Hk. rewrite E in Hk. unfold mapi in Hk.
    rewrite mapi_from_nth in Hk. simpl in Hk.
    destruct (nth_error shown k) as [m |] eqn:Em; [| discriminate].
    injection Hk as <-. split; [reflexivity |].
    exists m. split; [| reflexivity].
    subst shown. destruct variant; [exact Em |].
    destruct (innerWidth (doc w) <? 768); [| exact Em].
    eapply firstn_nth_some. exact Em.
Qed.

Lemma renderSlides_cap_witness :
  List.length (filteredMedia (app Fifty.narrow)) = 50%nat
  /\ List.length (slidesOf (exec (renderSlides Optimized) Fifty.narrow)) = 20%nat
  /\ List.length (slidesOf (exec (renderSlides Optimized) Fifty.wide)) = 50%nat.
Proof.
  split; [reflexivity |]. split.
  - apply (renderSlides_cap Optimized Fifty.narrow []). reflexivity.
  - apply (renderSlides_cap Optimized Fifty.wide []). reflexivity.
Defined.

(** The eager controller on a narrow viewport: fifty items, fifty slides. *)
Lemma renderSlides_eager_ignores_width :
  isMobile Fifty.narrow = true
  /\ List.length (filteredMedia (app Fifty.narrow)) = 50%nat
  /\ swiperWrapper (doc Fifty.narrow) = Some []
  /\ List.length (slidesOf (exec (renderSlides Eager) Fifty.narrow)) = 50%nat
  /\ List.length (slidesOf (exec (renderSlides Eager) Fifty.narrow)) <> 20%nat.
Proof.
  repeat split; vm_compute; discriminate.
Qed.

(* ================================================================== *)
(** ** Invariants of the running page *)

Section Preservation.

Variable P : World -> Prop.

Lemma pres_ret {A : Type} (a : A) : Preserves P (ret a).
Proof. intros w H. exact H. Qed.

Lemma pres_throw {A : Type} (e : Exn) : Preserves P (@throw A e).
Proof. intros w H. exact H. Qed.

Lemma pres_get {A : Type} (f : World -> A) : Preserves P (get f).
Proof. intros w H. exact H. Qed.

Lemma pres_deref {A : Type} (r : string) (x : option A) : Preserves P (deref r x).
Proof. destruct x; intros w H; exact H. Qed.

Lemma pres_modify (f : World -> World) :
  (forall w, P w -> P (f w)) -> Preserves P (modify f).
Proof. intros Hf w H. apply Hf. exact H. Qed.

Lemma pres_bind {A B : Type} (m : M A) (k : A -> M B) :
  Preserves P m -> (forall a, Preserves P (k a)) -> Preserves P (bind m k).
Proof.
  intros Hm Hk w H. unfold bind. specialize (Hm w H).
  destruct (m w) as [[a | e] w1]; simpl in *.
  - apply Hk. exact Hm.
  - exact Hm.
Qed.

Lemma pres_when (b : bool) (m : M unit) : Preserves P m -> Preserves P (when b m).
Proof. intro H. destruct b; simpl; [exact H | apply pres_ret]. Qed.

Lemma pres_frame {X A : Type} (obs : World -> X) (m : M A) :
  (forall w w', obs w' = obs w -> P w -> P w') ->
  Frame obs m -> Preserves P m.
Proof. intros Hobs F w H. eapply Hobs; [apply F | exact H]. Qed.

Lemma pres_run variant (trace : list Event) (w : World) :
  (forall e, Preserves P (handle variant e)) ->
  P w -> P (run variant w trace).
Proof.
  intro Hall. unfold run. revert w.
  induction trace as [| e es IH]; intros w H; simpl.
  - exact H.
  - apply IH. apply Hall. exact H.
Qed.

End Preservation.

(** [Preserves] goals likewise; [known] closes the calls that have a lemma
    of their own, [leaf] the single assignments. *)
Ltac pres_step known leaf :=
  first
    [ solve [known]
    | apply pres_ret | apply pres_throw | apply pres_get | apply pres_deref
    | apply pres_modify; solve [leaf]
    | apply pres_when
    | apply pres_bind; [ | intros ]
    | match goal with
      | |- Preserves _ (match ?x with _ => _ end) => destruct x
      end ].

Ltac pres known leaf := repeat (pres_step known leaf).

(** *** The filtered view always is the catalogue filtered by the current
    filter *)

Lemma viewConsistent_view (w w' : World) :
  viewOf w' = viewOf w -> viewConsistent w -> viewConsistent w'.
Proof.
  unfold viewOf, viewConsistent. intros H Hv.
  injection H as Hc Hf Hflt.
  rewrite Hc, Hf, Hflt. exact Hv.
Qed.

Lemma handleTabSwitch_viewConsistent variant n flt :
  Preserves viewConsistent (handleTabSwitch variant n flt).
Proof.
  intros w _. pose proof (handleTabSwitch_data variant n flt w) as H.
  unfold exec, dataOf in H. injection H as Hc Hf Hi Hflt Hview.
  unfold viewConsistent. rewrite Hc, Hf, Hflt. reflexivity.
Qed.

Lemma handle_viewConsistent variant (e : Event) :
  Preserves viewConsistent (handle variant e).
Proof.
  destruct e;
    try (apply (pres_frame _ viewOf); [apply viewConsistent_view |];
         unfold handle, handleKeyboard, runTimer; solve [frame]).
  unfold handle. apply pres_bind; [apply pres_get |].
  intros [b |]; [apply handleTabSwitch_viewConsistent | apply pres_ret].
Qed.

(** In every state the page can reach, the filtered view is the catalogue
    filtered by the current filter. *)
Lemma reachable_viewConsistent variant (M : Manifest) (d : Doc) (allowed : bool)
      (layout : Z -> list Slide -> list Slide)
      (w : World) :
  Reachable variant (load M d allowed layout) w -> viewConsistent w.
Proof.
  intros [trace <-].
  apply pres_run; [apply handle_viewConsistent | reflexivity].
Qed.

(* ================================================================== *)
(** ** Playback touches the slides only, and only their media state *)

Lemma galleryVideos_slides (w : World) :
  galleryVideos w = flat_map videosOfSlide (slidesOf w).
Proof. reflexivity. Qed.

Lemma playingIn_cons (s : Slide) (l : list Slide) :
  playingIn (s :: l) = (playingIn [s] + playingIn l)%nat.
Proof.
  unfold playingIn. simpl. rewrite app_nil_r, filter_app, length_app.
  reflexivity.
Qed.

Lemma playingIn_one (s : Slide) : (playingIn [s] <= 1)%nat.
Proof.
  unfold playingIn, videosOfSlide. simpl.
  destruct (s_content s) as [v o | i]; simpl; [| lia].
  destruct (playing v); simpl; lia.
Qed.

Lemma playingIn_update (k : nat) (g : Slide -> Slide) (l : list Slide) :
  (playingIn (update_nth k g l) <= playingIn l + 1)%nat.
Proof.
  revert k. induction l as [| s l IH]; intro k.
  - destruct k; simpl; unfold playingIn; simpl; lia.
  - destruct k as [| k]; simpl.
    + rewrite (playingIn_cons (g s)), (playingIn_cons s).
      pose proof (playingIn_one (g s)). lia.
    + rewrite (playingIn_cons s (update_nth k g l)), (playingIn_cons s l).
      specialize (IH k). lia.
Qed.

(** If [g] does not start a video, neither does updating with [g]. *)
Lemma playingIn_update_quiet (k : nat) (g : Slide -> Slide) (l : list Slide) :
  (forall s, playingIn [g s] <= playingIn [s])%nat ->
  (playingIn (update_nth k g l) <= playingIn l)%nat.
Proof.
  intro Hg. revert k. induction l as [| s l IH]; intro k.
  - destruct k; simpl; lia.
  - destruct k as [| k]; simpl.
    + rewrite (playingIn_cons (g s)), (playingIn_cons s).
      specialize (Hg s). lia.
    + rewrite (playingIn_cons s (update_nth k g l)), (playingIn_cons s l).
      specialize (IH k). lia.
Qed.

Lemma map_keeps (g : Slide -> Slide) :
  (forall s, skeleton (g s) = skeleton s) -> KeepsSkeleton (map g).
Proof.
  intros Hg l. rewrite map_map. apply map_ext. exact Hg.
Qed.

Lemma update_nth_keeps (k : nat) (g : Slide -> Slide) :
  (forall s, skeleton (g s) = skeleton s) -> KeepsSkeleton (update_nth k g).
Proof.
  intros Hg l. revert k. induction l as [| x xs IH]; intro k.
  - destruct k; reflexivity.
  - destruct k as [| k]; simpl.
    + rewrite Hg. reflexivity.
    + rewrite IH. reflexivity.
Qed.

Lemma compose_keeps (f g : list Slide -> list Slide) :
  KeepsSkeleton f -> KeepsSkeleton g -> KeepsSkeleton (fun l => g (f l)).
Proof. intros Hf Hg l. rewrite Hg. apply Hf. Qed.

Lemma on_slides_compose (f g : list Slide -> list Slide) (w : World) :
  on_slides g (on_slides f w) = on_slides (fun l => g (f l)) w.
Proof.
  unfold on_slides, upd_doc, set_swiperWrapper. simpl.
  destruct (swiperWrapper (doc w)); reflexivity.
Qed.

Lemma pauseAllVideos_run (w : World) :
  pauseAllVideos w =
  (Returned tt, on_slides (fun l => map showOverlay (map rewindSlide l)) w).
Proof.
  unfold pauseAllVideos, bind, modify. rewrite on_slides_compose. reflexivity.
Qed.

Lemma rewind_show_keeps :
  KeepsSkeleton (fun l => map showOverlay (map rewindSlide l)).
Proof.
  apply compose_keeps; apply map_keeps; intro s;
    unfold rewindSlide, showOverlay; destruct (s_content s); reflexivity.
Qed.

Lemma playingIn_paused (l : list Slide) :
  playingIn (map showOverlay (map rewindSlide l)) = 0%nat.
Proof.
  induction l as [| s l IH]; [reflexivity |].
  simpl map. rewrite playingIn_cons, IH.
  unfold playingIn, videosOfSlide, showOverlay, rewindSlide. simpl.
  destruct (s_content s) eqn:E; simpl; rewrite ?E; reflexivity.
Qed.

(** [handleVideoAutoplay] always returns, and all it does is rewrite the
    media state of slides, leaving at most one carousel video playing. *)
Lemma handleVideoAutoplay_run variant (w : World) :
  exists f, KeepsSkeleton f /\
            (forall l, playingIn (f l) <= 1)%nat /\
            handleVideoAutoplay variant w = (Returned tt, on_slides f w).
Proof.
  unfold handleVideoAutoplay. unfold bind at 1. rewrite pauseAllVideos_run.
  set (w1 := on_slides _ w).
  unfold bind, get. simpl.
  destruct (findActive 0 (slidesOf w1)) as [[k s] |].
  - destruct (s_content s) as [v o | i].
    + destruct (play (autoplayAllowed w1) (resolveSrc variant v)) as [v' p].
      unfold bind, modify, catch_discard, ret. simpl.
      subst w1. do 2 rewrite on_slides_compose.
      eexists. split; [| split; [| reflexivity]].
      * intro l.
        rewrite !update_nth_keeps
          by (intro s0; try reflexivity; destruct (s_content s0); reflexivity).
        apply rewind_show_keeps.
      * intro l. simpl.
        eapply Nat.le_trans; [apply playingIn_update_quiet |].
        { intro s0. unfold playingIn, videosOfSlide.
          destruct (s_content s0) eqn:E; simpl; rewrite ?E; simpl; lia. }
        eapply Nat.le_trans; [apply playingIn_update |].
        rewrite playingIn_paused. lia.
    + subst w1. eexists. split; [apply rewind_show_keeps |].
      split; [| reflexivity]. intro l. rewrite playingIn_paused. lia.
  - subst w1. eexists. split; [apply rewind_show_keeps |].
    split; [| reflexivity]. intro l. rewrite playingIn_paused. lia.
Qed.

Arguments handleVideoAutoplay : simpl never.
Arguments markActive : simpl never.
Arguments clearActive : simpl never.

Lemma slidesOf_on_slides (f : list Slide -> list Slide) (w : World) :
  slidesOf (on_slides f w) = match swiperWrapper (doc w) with
                             | Some l => f l
                             | None => []
                             end.
Proof.
  unfold slidesOf, on_slides. simpl. destruct (swiperWrapper (doc w)); reflexivity.
Qed.

(** With the slide container mounted, [initSwiper] returns, installs a
    carousel instance with a fresh identity at real index 0, attaches it,
    leaves the counters alone and has the carousel lay the slides out:
    without [loop], slide 0 is marked active. *)
Lemma initSwiper_run variant (w : World) (old : list Slide) :
  swiperWrapper (doc w) = Some old ->
  let w' := exec (initSwiper variant) w in
  let loop := loopOf variant (filteredMedia (app w)) in
  fst (initSwiper variant w) = Returned tt
  /\ swiper (app w') = Some (mkSwiper (nextSwiperId w) loop 0)
  /\ nextSwiperId w' = S (nextSwiperId w)
  /\ liveSwipers w' = nextSwiperId w :: liveSwipers w
  /\ currentIndexEl (doc w') = currentIndexEl (doc w)
  /\ map skeleton (slidesOf w') =
     map skeleton ((if loop then loopLayout w 0 else markActive 0)
                     (keptSlides variant w old)).
Proof.
  intros Hw w' loop. subst w' loop.
  unfold exec, initSwiper, keptSlides, newSwiper, arrange, loopOf, when, bind,
    get, modify, ret, deref.
  destruct variant; simpl.
  - match goal with
    | |- context [handleVideoAutoplay ?v ?w2] =>
        destruct (handleVideoAutoplay_run v w2) as [f [Hf [_ E]]]; rewrite E
    end.
    simpl. rewrite slidesOf_on_slides. simpl. rewrite Hw. simpl.
    rewrite Hf. repeat split.
  - destruct (isMobile w) eqn:Em; simpl.
    + destruct (20 <? Z.of_nat (List.length (filteredMedia (app w)))) eqn:El; simpl.
      * rewrite Hw. simpl.
        match goal with
        | |- context [handleVideoAutoplay ?v ?w2] =>
            destruct (handleVideoAutoplay_run v w2) as [f [Hf [_ E]]]; rewrite E
        end.
        simpl. rewrite slidesOf_on_slides. simpl.
        rewrite Hf. repeat split.
      * match goal with
        | |- context [handleVideoAutoplay ?v ?w2] =>
            destruct (handleVideoAutoplay_run v w2) as [f [Hf [_ E]]]; rewrite E
        end.
        simpl. rewrite slidesOf_on_slides. simpl. rewrite Hw. simpl.
        rewrite Hf. repeat split.
    + replace (Z.of_nat (List.length (filteredMedia (app w)))
               <? Z.of_nat (List.length (filteredMedia (app w))))
        with false by (symmetry; apply Z.ltb_irrefl).
      simpl.
      match goal with
      | |- context [handleVideoAutoplay ?v ?w2] =>
          destruct (handleVideoAutoplay_run v w2) as [f [Hf [_ E]]]; rewrite E
      end.
      simpl. rewrite slidesOf_on_slides. simpl. rewrite Hw. simpl.
      rewrite Hf. repeat split.
Qed.

(* ================================================================== *)
(** ** A tab click always rebuilds *)

Lemma renderSlides_run variant (w : World) (old : list Slide) :
  swiperWrapper (doc w) = Some old ->
  let w' := exec (renderSlides variant) w in
  renderSlides variant w = (Returned tt, w')
  /\ swiperWrapper (doc w') = Some (mapi (slideFor variant) (mediaToRender variant w))
  /\ app w' = app w
  /\ nextSwiperId w' = nextSwiperId w
  /\ innerWidth (doc w') = innerWidth (doc w)
  /\ currentIndexEl (doc w') = option_map (fun _ => Shown 1) (currentIndexEl (doc w))
  /\ liveSwipers w' = liveSwipers w
  /\ loopLayout w' = loopLayout w.
Proof.
  intros Hw w'. subst w'.
  unfold exec, renderSlides, updateCounter, bind, get, modify.
  simpl. rewrite Hw. crunch; repeat split; try reflexivity;
    match goal with
    | H : currentIndexEl _ = _ |- _ => rewrite H; reflexivity
    end.
Qed.

Lemma clearActive_rendered variant (xs : list MediaItem) (i0 : Z) :
  clearActive (mapi_from i0 (slideFor variant) xs) =
  mapi_from i0 (slideFor variant) xs.
Proof.
  unfold clearActive. revert i0.
  induction xs as [| x xs IH]; intro i0; simpl; [reflexivity |].
  rewrite IH. reflexivity.
Qed.



(** *** Teardown *)

Lemma teardown_run (w : World) :
  (sw <- get (fun w0 => swiper (app w0)) ;;
   match sw with
   | Some s => swiperDestroy s
   | None => ret tt
   end) w = (Returned tt, afterDestroy (swiper (app w)) w).
Proof.
  unfold swiperDestroy, afterDestroy, bind, get, when, modify, ret.
  destruct (swiper (app w)) as [s |]; [| reflexivity].
  destruct (isLive s w); reflexivity.
Qed.

Lemma afterDestroy_beside (old : option SwiperInst) (w : World) :
  besideTeardown (afterDestroy old w) = besideTeardown w.
Proof.
  unfold afterDestroy. destruct old as [s |]; [| reflexivity].
  destruct (isLive s w); reflexivity.
Qed.

Lemma not_live_detached (s : SwiperInst) (l : list nat) :
  existsb (Nat.eqb (sw_id s)) l = false ->
  filter (fun i => negb (Nat.eqb i (sw_id s))) l = l.
Proof.
  induction l as [| i l IH]; simpl; [reflexivity |].
  intro H. apply orb_false_iff in H. destruct H as [Hi Hl].
  rewrite Nat.eqb_sym, Hi. simpl. rewrite (IH Hl). reflexivity.
Qed.


(** After the teardown the old instance is attached no more; the other
    attached instances stay. *)
Lemma afterDestroy_live (old : option SwiperInst) (w : World) :
  liveSwipers (afterDestroy old w) = detached old w.
Proof.
  unfold afterDestroy, detached. destruct old as [s |]; [| reflexivity].
  unfold isLive. destruct (existsb (Nat.eqb (sw_id s)) (liveSwipers w)) eqn:E.
  - reflexivity.
  - symmetry. apply not_live_detached. exact E.
Qed.

(** On freshly rendered slides there is no class for the teardown to
    remove. *)
Lemma afterDestroy_rendered variant (old : option SwiperInst) (w : World)
      (xs : list MediaItem) :
  swiperWrapper (doc w) = Some (mapi (slideFor variant) xs) ->
  swiperWrapper (doc (afterDestroy old w)) = Some (mapi (slideFor variant) xs).
Proof.
  intro Hs. unfold afterDestroy. destruct old as [s |]; [| exact Hs].
  destruct (isLive s w); [| exact Hs].
  unfold on_slides, detach. simpl. rewrite Hs. simpl. f_equal.
  apply clearActive_rendered.
Qed.

(** [handleTabSwitch] with the container mounted, step by step: the fields
    are written, the slides rendered, the old instance torn down, and
    [initSwiper] runs on what that leaves. *)
Lemma handleTabSwitch_steps variant (n : nat) (flt : option string)
      (w : World) (old : list Slide) :
  swiperWrapper (doc w) = Some old ->
  let w1 := afterFilterUpdate n flt w in
  let w3 := afterDestroy (swiper (app w)) (exec (renderSlides variant) w1) in
  handleTabSwitch variant n flt w = initSwiper variant w3
  /\ swiperWrapper (doc w3) = Some (mapi (slideFor variant) (mediaToRender variant w1))
  /\ app w3 = app w1
  /\ nextSwiperId w3 = nextSwiperId w
  /\ innerWidth (doc w3) = innerWidth (doc w1)
  /\ currentIndexEl (doc w3) = option_map (fun _ => Shown 1) (currentIndexEl (doc w))
  /\ liveSwipers w3 = detached (swiper (app w)) w
  /\ loopLayout w3 = loopLayout w.
Proof.
  intros Hw w1 w3.
  assert (Hw1 : swiperWrapper (doc w1) = Some old) by exact Hw.
  destruct (renderSlides_run variant w1 old Hw1)
    as (E2 & Hs2 & Ha2 & Hn2 & Hwd2 & Hc2 & Hl2 & Hy2).
  set (w2 := exec (renderSlides variant) w1) in *.
  assert (Hold : swiper (app w2) = swiper (app w))
    by (rewrite Ha2; reflexivity).
  pose proof (afterDestroy_beside (swiper (app w)) w2) as Hb.
  fold w3 in Hb. unfold besideTeardown in Hb.
  injection Hb as Hb1 Hb2 Hb3 Hb4 Hb5.
  split.
  { rewrite handleTabSwitch_split. fold w1.
    unfold rebuildCarousel. unfold bind at 1. rewrite E2.
    change (bind (bind (get (fun w0 => swiper (app w0)))
                    (fun sw => match sw with
                               | Some s => swiperDestroy s
                               | None => ret tt
                               end))
              (fun _ => initSwiper variant) w2 = initSwiper variant w3).
    unfold bind at 1. rewrite teardown_run, Hold. reflexivity. }
  split; [apply afterDestroy_rendered; exact Hs2 |].
  split; [rewrite Hb1; exact Ha2 |].
  split; [rewrite Hb2; exact Hn2 |].
  split; [rewrite Hb4; exact Hwd2 |].
  split; [rewrite Hb3; exact Hc2 |].
  split; [| rewrite Hb5; exact Hy2].
  subst w3. rewrite afterDestroy_live.
  unfold detached. rewrite Hl2. reflexivity.
Qed.

Lemma handleTabSwitch_installs_swiper variant (n : nat) (flt : option string)
      (w : World) (old : list Slide) :
  swiperWrapper (doc w) = Some old ->
  exists loop,
    swiper (app (exec (handleTabSwitch variant n flt) w)) =
    Some (mkSwiper (nextSwiperId w) loop 0).
Proof.
  intro Hw.
  destruct (handleTabSwitch_steps variant n flt w old Hw)
    as (Erun & Hs3 & _ & Hn3 & _).
  destruct (initSwiper_run variant _ _ Hs3) as (_ & Hsw & _).
  eexists. unfold exec in *. rewrite Erun, <- Hn3. exact Hsw.
Qed.


(** *** Carousel identities are never reused *)

Lemma freshIds_swiperOf (w w' : World) :
  swiperOf w' = swiperOf w -> freshIds w -> freshIds w'.
Proof.
  unfold swiperOf, freshIds. intros H Hf. injection H as Hs Hn.
  rewrite Hs, Hn. exact Hf.
Qed.

Lemma initSwiper_fresh variant : Preserves freshIds (initSwiper variant).
Proof.
  intros w H.
  assert (G : forall w0 : World,
             nextSwiperId w0 = nextSwiperId w ->
             freshIds (snd (bind (get (fun x => Z.of_nat (List.length (filteredMedia (app x)))))
               (fun len => bind (newSwiper (match variant with
                                            | Eager => 3 <? len
                                            | Optimized => false
                                            end))
                  (fun sw => bind (modify (upd_app (set_swiper (Some sw))))
                     (fun _ => handleVideoAutoplay variant))) w0))).
  { intros w0 Hn. unfold bind, get, newSwiper, modify, ret. simpl.
    match goal with
    | |- context [handleVideoAutoplay ?v ?w2] =>
        destruct (handleVideoAutoplay_run v w2) as [f [Hf [_ E]]]; rewrite E
    end.
    unfold freshIds. simpl. lia. }
  unfold initSwiper. destruct variant.
  - apply (G w). reflexivity.
  - unfold bind at 1. unfold bind at 1. unfold get at 1. unfold bind at 1.
    unfold get at 1. unfold when.
    destruct (isMobile w &&
              ((if isMobile w then 20
                else Z.of_nat (List.length (filteredMedia (app w)))) <?
               Z.of_nat (List.length (filteredMedia (app w))))).
    + unfold bind at 1. unfold bind at 1. unfold get at 1.
      destruct (swiperWrapper (doc w)); simpl.
      * apply G. reflexivity.
      * exact H.
    + apply (G w). reflexivity.
Qed.

Lemma handle_fresh variant (e : Event) : Preserves freshIds (handle variant e).
Proof.
  destruct e;
    try (apply (pres_frame _ swiperOf); [apply freshIds_swiperOf |];
         unfold handle, handleKeyboard; solve [frame]).
  - (* a tab click *)
    unfold handle, handleTabSwitch.
    pres ltac:(idtac;
               lazymatch goal with
               | |- Preserves _ (initSwiper _) => apply initSwiper_fresh
               end)
         ltac:(intros ? Hf; exact Hf).
  - (* a timer *)
    unfold handle, runTimer.
    pres ltac:(idtac;
               lazymatch goal with
               | |- Preserves _ (initSwiper _) => apply initSwiper_fresh
               end)
         ltac:(intros ? Hf; exact Hf).
  - (* the carousel moved *)
    intros w H. unfold handle. unfold bind at 1. unfold get at 1.
    unfold bind at 1. unfold get at 1.
    destruct (swiper (app w)) as [s |] eqn:Es; [| exact H].
    unfold bind at 1. unfold get at 1. unfold when.
    destruct (isLive s w && Nat.ltb realIndex (List.length (slidesOf w)));
      [| exact H].
    rewrite !exec_modify_then_snd.
    match goal with
    | |- freshIds (snd (?m ?w2)) =>
        assert (F : Frame swiperOf m) by frame;
        apply (freshIds_swiperOf w2); [apply F |]
    end.
    unfold freshIds in *. simpl. rewrite Es in H. exact H.
Qed.

Lemma reachable_fresh variant (M : Manifest) (d : Doc) (allowed : bool)
      (layout : Z -> list Slide -> list Slide)
      (w : World) :
  Reachable variant (load M d allowed layout) w -> freshIds w.
Proof.
  intros [trace <-].
  apply pres_run; [apply handle_fresh | exact I].
Qed.

(** In a state whose carousel identity was issued earlier, the carousel
    after a tab click is a different instance. *)
Lemma handleTabSwitch_new_instance variant (n : nat) (flt : option string)
      (w : World) (old : list Slide) :
  swiperWrapper (doc w) = Some old -> freshIds w ->
  swiper (app (exec (handleTabSwitch variant n flt) w)) <> swiper (app w).
Proof.
  intros Hw Hfresh.
  destruct (handleTabSwitch_installs_swiper variant n flt w old Hw) as [loop E].
  rewrite E. unfold freshIds in Hfresh.
  destruct (swiper (app w)) as [s |]; [| discriminate].
  intro Heq. injection Heq as <-. simpl in Hfresh. lia.
Qed.



(** *** Never two carousels on the container *)

Lemma singleCarousel_registry (w w' : World) :
  registryOf w' = registryOf w -> singleCarousel w -> singleCarousel w'.
Proof.
  unfold registryOf, singleCarousel. intros H Hs. injection H as Hsw Hl.
  rewrite Hsw, Hl. exact Hs.
Qed.

Lemma renderSlides_registry variant : Frame registryOf (renderSlides variant).
Proof. unfold renderSlides, updateCounter. frame. Qed.

(** A teardown leaves no carousel attached. *)
Lemma afterDestroy_none_live (w : World) :
  singleCarousel w -> liveSwipers (afterDestroy (swiper (app w)) w) = [].
Proof.
  intro H. rewrite afterDestroy_live. unfold detached.
  destruct H as [H | [s [Hs Hl]]].
  - rewrite H. destruct (swiper (app w)); reflexivity.
  - rewrite Hs, Hl. simpl. rewrite Nat.eqb_refl. reflexivity.
Qed.

(** Started with no carousel attached, [initSwiper] ends with the one it
    installs, or, when it throws on the way, with none. *)
Lemma initSwiper_single variant (w : World) :
  liveSwipers w = [] -> singleCarousel (exec (initSwiper variant) w).
Proof.
  intro H.
  assert (G : forall w0 : World,
             liveSwipers w0 = [] ->
             singleCarousel (snd (bind (get (fun x => Z.of_nat (List.length (filteredMedia (app x)))))
               (fun len => bind (newSwiper (match variant with
                                            | Eager => 3 <? len
                                            | Optimized => false
                                            end))
                  (fun sw => bind (modify (upd_app (set_swiper (Some sw))))
                     (fun _ => handleVideoAutoplay variant))) w0))).
  { intros w0 H0. unfold bind, get, newSwiper, modify, ret. simpl.
    match goal with
    | |- context [handleVideoAutoplay ?v ?w2] =>
        destruct (handleVideoAutoplay_run v w2) as [f [Hf [_ E]]]; rewrite E
    end.
    right. eexists. split; [reflexivity |]. simpl. rewrite H0. reflexivity. }
  unfold exec, initSwiper. destruct variant.
  - apply (G w). exact H.
  - unfold bind at 1. unfold bind at 1. unfold get at 1. unfold bind at 1.
    unfold get at 1. unfold when.
    destruct (isMobile w &&
              ((if isMobile w then 20
                else Z.of_nat (List.length (filteredMedia (app w)))) <?
               Z.of_nat (List.length (filteredMedia (app w))))).
    + unfold bind at 1. unfold bind at 1. unfold get at 1.
      destruct (swiperWrapper (doc w)); simpl.
      * apply G. exact H.
      * left. exact H.
    + apply (G w). exact H.
Qed.

Lemma rebuildCarousel_single variant : Preserves singleCarousel (rebuildCarousel variant).
Proof.
  intros w H. unfold rebuildCarousel.
  change (singleCarousel
            (snd (bind (renderSlides variant)
                    (fun _ => bind (bind (get (fun w0 => swiper (app w0)))
                                      (fun sw => match sw with
                                                 | Some s => swiperDestroy s
                                                 | None => ret tt
                                                 end))
                                (fun _ => initSwiper variant)) w))).
  unfold bind at 1.
  pose proof (renderSlides_registry variant w) as Hr.
  destruct (renderSlides variant w) as [[[] | e] w2]; simpl in Hr.
  - unfold bind at 1. rewrite teardown_run.
    apply initSwiper_single. apply afterDestroy_none_live.
    apply (singleCarousel_registry w); assumption.
  - simpl. apply (singleCarousel_registry w); assumption.
Qed.

Lemma handleTabSwitch_single variant n flt :
  Preserves singleCarousel (handleTabSwitch variant n flt).
Proof.
  intros w H. rewrite handleTabSwitch_split.
  apply rebuildCarousel_single.
  apply (singleCarousel_registry w); [reflexivity | exact H].
Qed.

Lemma revealGallery_single variant :
  Preserves singleCarousel
    (sw <- get (fun w => swiper (app w)) ;;
     match sw with
     | None => renderSlides variant ;; initSwiper variant
     | Some _ => ret tt
     end).
Proof.
  intros w H. unfold bind at 1. unfold get at 1.
  destruct (swiper (app w)) as [s |] eqn:Es; [exact H |].
  assert (Hl : liveSwipers w = []).
  { destruct H as [H | [s [Hs _]]]; [exact H | congruence]. }
  unfold bind.
  pose proof (renderSlides_registry variant w) as Hr.
  destruct (renderSlides variant w) as [[[] | e] w2]; simpl in Hr.
  - apply initSwiper_single. unfold registryOf in Hr. congruence.
  - simpl. apply (singleCarousel_registry w); assumption.
Qed.

Lemma handle_single variant (e : Event) : Preserves singleCarousel (handle variant e).
Proof.
  destruct e;
    try (apply (pres_frame _ registryOf); [apply singleCarousel_registry |];
         unfold handle, handleKeyboard; solve [frame]).
  - (* a tab click *)
    unfold handle. apply pres_bind; [apply pres_get |].
    intros [b |]; [apply handleTabSwitch_single | apply pres_ret].
  - (* a timer *)
    unfold handle, runTimer.
    pres ltac:(idtac;
               lazymatch goal with
               | |- Preserves _ (bind (get (fun w => swiper (app w))) _) =>
                   apply revealGallery_single
               end)
         ltac:(intros ? Hf; exact Hf).
  - (* the carousel moved *)
    intros w H. unfold handle. unfold bind at 1. unfold get at 1.
    unfold bind at 1. unfold get at 1.
    destruct (swiper (app w)) as [s |] eqn:Es; [| exact H].
    unfold bind at 1. unfold get at 1. unfold when.
    destruct (isLive s w && Nat.ltb realIndex (List.length (slidesOf w)));
      [| exact H].
    rewrite !exec_modify_then_snd.
    match goal with
    | |- singleCarousel (snd (?m ?w2)) =>
        assert (F : Frame registryOf m) by frame;
        apply (singleCarousel_registry w2); [apply F |]
    end.
    destruct H as [H | [s0 [Hs0 Hl]]]; [left; exact H |].
    right. eexists. split; [reflexivity |]. simpl.
    rewrite Hl. congruence.
Qed.

(** In every state the page can reach at most one carousel is attached to
    the container, and it is the one the controller holds. *)
Lemma reachable_single variant (M : Manifest) (d : Doc) (allowed : bool)
      (layout : Z -> list Slide -> list Slide) (w : World) :
  Reachable variant (load M d allowed layout) w -> singleCarousel w.
Proof.
  intros [trace <-].
  apply pres_run; [apply handle_single | left; reflexivity].
Qed.

(* ================================================================== *)
(** ** Playback *)

(** After [pauseAllVideos] no carousel video is playing. *)
Lemma pauseAllVideos_gallery_silent (w : World) :
  filter playing (galleryVideos (exec pauseAllVideos w)) = [].
Proof.
  unfold exec. rewrite pauseAllVideos_run. simpl.
  rewrite galleryVideos_slides, slidesOf_on_slides.
  apply length_zero_iff_nil.
  destruct (swiperWrapper (doc w)); [apply playingIn_paused | reflexivity].
Qed.

Lemma pauseAllVideos_lightbox (w : World) :
  lightboxVideos (exec pauseAllVideos w) = lightboxVideos w.
Proof. unfold exec. rewrite pauseAllVideos_run. reflexivity. Qed.

(** So after [pauseAllVideos] the only video that can be playing is the
    lightbox's own. *)
Lemma pauseAllVideos_at_most_one (w : World) :
  (List.length (lightboxVideos w) <= 1)%nat ->
  (playingCount (exec pauseAllVideos w) <= 1)%nat.
Proof.
  intro H. unfold playingCount, documentVideos.
  rewrite filter_app, length_app, pauseAllVideos_gallery_silent.
  rewrite pauseAllVideos_lightbox. simpl.
  pose proof (filter_length_le playing (lightboxVideos w)). lia.
Qed.

(** After [handleVideoAutoplay] at most one carousel video is playing. *)
Lemma handleVideoAutoplay_gallery_at_most_one variant (w : World) :
  (List.length (filter playing (galleryVideos (exec (handleVideoAutoplay variant) w)))
   <= 1)%nat.
Proof.
  destruct (handleVideoAutoplay_run variant w) as [f [_ [Hq E]]].
  unfold exec. rewrite E. simpl.
  rewrite galleryVideos_slides, slidesOf_on_slides.
  destruct (swiperWrapper (doc w)); [apply Hq | simpl; lia].
Qed.

Lemma handleVideoAutoplay_returns variant (w : World) :
  fst (handleVideoAutoplay variant w) = Returned tt.
Proof.
  destruct (handleVideoAutoplay_run variant w) as [f [_ [_ E]]].
  rewrite E. reflexivity.
Qed.

(* ------------------------------------------------------------------ *)
(** *** The overlay of the active slide *)

Lemma findActive_nth (l : list Slide) (n k : nat) (s : Slide) :
  findActive n l = Some (k, s) ->
  (n <= k)%nat /\ nth_error l (k - n) = Some s /\ s_active s = true.
Proof.
  revert n. induction l as [| x xs IH]; intros n H; simpl in H; [discriminate |].
  destruct (s_active x) eqn:Ex.
  - injection H as <- <-. rewrite Nat.sub_diag. auto.
  - apply IH in H. destruct H as (Hle & Hn & Ha).
    split; [lia |]. split; [| exact Ha].
    replace (k - n)%nat with (S (k - S n)) by lia. exact Hn.
Qed.

Lemma update_nth_nth {A : Type} (k : nat) (g : A -> A) (l : list A) :
  nth_error (update_nth k g l) k = option_map g (nth_error l k).
Proof.
  revert k. induction l as [| x xs IH]; intro k.
  - destruct k; reflexivity.
  - destruct k as [| k]; simpl; [reflexivity | apply IH].
Qed.

Lemma paused_after_rewind (l : list Slide) (k : nat) (s : Slide) (v : Video) (o : Overlay) :
  nth_error (map showOverlay (map rewindSlide l)) k = Some s ->
  s_content s = VideoSlide v o ->
  v_paused v = true /\ o = mkOverlay "1".
Proof.
  rewrite map_map, nth_error_map.
  destruct (nth_error l k) as [s0 |]; simpl; [| discriminate].
  intros H Hc. injection H as <-.
  unfold showOverlay, rewindSlide in Hc.
  destruct (s_content s0) eqn:E; simpl in Hc; rewrite ?E in Hc; simpl in Hc;
    [| discriminate].
  injection Hc as <- <-. split; reflexivity.
Qed.

(** Whatever the play attempt gives, the overlay of an active video slide
    ends up hidden; when the attempt is rejected the video stays paused
    under the hidden overlay. *)
Lemma handleVideoAutoplay_hides_overlay variant (w : World) (k : nat) (s : Slide)
      (v : Video) (o : Overlay) :
  findActive 0 (slidesOf (exec pauseAllVideos w)) = Some (k, s) ->
  s_content s = VideoSlide v o ->
  exists v',
    nth_error (slidesOf (exec (handleVideoAutoplay variant) w)) k =
    Some (mkSlide (s_index s) (s_active s) (VideoSlide v' (mkOverlay "0")))
    /\ (autoplayAllowed w = false -> v_paused v' = true)
    /\ (autoplayAllowed w = true -> v_paused v' = false).
Proof.
  unfold exec at 1. rewrite pauseAllVideos_run. simpl snd.
  intros Hact Hc.
  unfold exec, handleVideoAutoplay. unfold bind at 1. rewrite pauseAllVideos_run.
  set (w1 := on_slides _ w) in *.
  unfold bind at 1. unfold get at 1. rewrite Hact, Hc.
  unfold bind at 1. unfold get at 1.
  assert (Ha : autoplayAllowed w1 = autoplayAllowed w) by reflexivity.
  rewrite Ha.
  apply findActive_nth in Hact. destruct Hact as (_ & Hk & _).
  rewrite Nat.sub_0_r in Hk.
  assert (Hp : v_paused v = true).
  { subst w1. rewrite slidesOf_on_slides in Hk.
    destruct (swiperWrapper (doc w)) as [l0 |]; [| destruct k; discriminate].
    eapply paused_after_rewind; eassumption. }
  destruct (play (autoplayAllowed w) (resolveSrc variant v)) as [v' p] eqn:Ep.
  exists v'.
  unfold bind, modify, catch_discard, ret. simpl snd.
  rewrite on_slides_compose, slidesOf_on_slides.
  unfold slidesOf in Hk.
  destruct (swiperWrapper (doc w1)) as [l1 |]; [| destruct k; discriminate].
  rewrite !update_nth_nth, Hk. simpl.
  split; [reflexivity |].
  unfold play in Ep.
  assert (Hr : v_paused (resolveSrc variant v) = true).
  { unfold resolveSrc. destruct variant; [exact Hp |].
    destruct (negb (truthy (v_src v)) && truthy (v_dataSrc v)); exact Hp. }
  destruct (autoplayAllowed w); injection Ep as <- <-; split; intro;
    try discriminate; try reflexivity; exact Hr.
Qed.

(* ================================================================== *)
(** ** Where the code departs from its documentation *)

(** C2, at the failing input.  With the lightbox open on a playing video,
    a slide change of the carousel behind it (a key its keyboard control
    handles and [handleKeyboard] ignores) runs [handleVideoAutoplay], which
    starts the active slide's video: two videos of the document are playing
    immediately after the call.  An arrow key, which both navigate on,
    ends the same way once the re-opened lightbox video has started. *)
Theorem handleVideoAutoplay_beside_lightbox_two_playing :
  lightbox (doc (TwoVideos.lightboxPlaying Eager)) = Some true
  /\ playingCount (TwoVideos.lightboxPlaying Eager) = 1%nat
  /\ playingCount (exec (handleVideoAutoplay Eager) (TwoVideos.lightboxPlaying Eager)) = 2%nat
  /\ playingCount (dispatch Eager (TwoVideos.lightboxPlaying Eager) (Swiper_slideChange 1)) = 2%nat
  /\ playingCount (dispatch Optimized (TwoVideos.lightboxPlaying Optimized) (Swiper_slideChange 1)) = 2%nat
  /\ playingCount (run Eager (TwoVideos.lightboxPlaying Eager)
                     [KeyDown "ArrowRight"; Swiper_slideChange 1; Lightbox_autoplay]) = 2%nat.
Proof. repeat split; vm_compute; reflexivity. Qed.

(** C5, at the failing inputs.  With its mount point missing, [showGallery]
    (reached by pressing Enter on the hero view), [showHero], [openLightbox]
    and [closeLightbox] raise a [TypeError]; so does the timer callback of
    [showGallery] on a page without the gallery section, and so does the
    optimized [handleTabSwitch] on a phone with more than 20 items and no
    slide container.  [renderSlides], [updateCounter] and the eager
    [handleTabSwitch] do tolerate missing elements. *)
Theorem missing_mount_points_throw :
  fst (handleKeyboard Eager "Enter" Bare.start) = Thrown (TypeError "heroCover")
  /\ fst (showGallery Bare.start) = Thrown (TypeError "heroCover")
  /\ fst (showHero Bare.start) = Thrown (TypeError "galleryView")
  /\ fst (openLightbox (JS.Num 0) Bare.start) = Thrown (TypeError "lightboxContent")
  /\ fst (closeLightbox Eager Bare.start) = Thrown (TypeError "lightbox")
  /\ fst (handle Eager TimerFires
            (dispatch Eager (load Sample.manifest Bare.noGallery true Sample.ring) (KeyDown "Enter")))
     = Thrown (TypeError "galleryView")
  /\ fst (handleTabSwitch Optimized 0 (Some "image") Bare.phoneNoWrapper)
     = Thrown (TypeError "swiperWrapper")
  /\ fst (renderSlides Eager Bare.start) = Returned tt
  /\ fst (updateCounter 0 Bare.start) = Returned tt
  /\ fst (handleTabSwitch Eager 1 (Some "video") Bare.start) = Returned tt.
Proof. repeat split; vm_compute; reflexivity. Qed.

(** C6, at the failing input.  The browser rejects [play()]: the rejection
    is consumed ([handleVideoAutoplay] returns), the video of the active
    slide stays paused, and its overlay has been hidden all the same
    (opacity ["0"]). *)
Theorem rejected_play_hides_overlay :
  autoplayAllowed (Denied.videoTab Eager) = false
  /\ fst (handleVideoAutoplay Eager (Denied.videoTab Eager)) = Returned tt
  /\ option_map (fun s => (s_active s, s_content s))
       (nth_error (slidesOf (exec (handleVideoAutoplay Eager) (Denied.videoTab Eager))) 0)
     = Some (true,
             VideoSlide
               (mkVideo (Some "c.mp4") None None true true "metadata"
                  false false false true 0)
               (mkOverlay "0"))
  /\ playingCount (exec (handleVideoAutoplay Eager) (Denied.videoTab Eager)) = 0%nat
  /\ option_map (fun s => match s_content s with
                          | VideoSlide v o => (v_paused v, opacity o)
                          | ImageSlide _ => (false, "")
                          end)
       (nth_error (slidesOf (exec (handleVideoAutoplay Optimized) (Denied.videoTab Optimized))) 0)
     = Some (true, "0").
Proof. repeat split; vm_compute; reflexivity. Qed.

(* ================================================================== *)
(** ** While the lightbox is closed *)

Lemma lightboxQuiet_lightboxOf (w w' : World) :
  lightboxOf w' = lightboxOf w -> lightboxQuiet w -> lightboxQuiet w'.
Proof.
  unfold lightboxOf, lightboxQuiet, lightboxVideos. intros H Hq.
  injection H as Hl Hc. rewrite Hl, Hc. exact Hq.
Qed.

Lemma handleVideoAutoplay_lightboxOf variant : Frame lightboxOf (handleVideoAutoplay variant).
Proof.
  intro w. destruct (handleVideoAutoplay_run variant w) as [f [_ [_ E]]].
  rewrite E. reflexivity.
Qed.

Lemma openLightbox_quiet (i : JS.num) : Preserves lightboxQuiet (openLightbox i).
Proof.
  intros w [H1 H2].
  unfold openLightbox, pauseAllVideos, bind, get, modify, deref, throw, ret.
  simpl.
  destruct (lightboxContent (doc w)) as [c |] eqn:Ec; simpl.
  - destruct (JS.index (filteredMedia (app w)) i) as [m |]; simpl.
    + destruct (String.eqb (type m) "video"); simpl;
        destruct (lightbox (doc w)) as [a |] eqn:El; simpl;
        unfold lightboxQuiet, lightboxVideos; simpl; rewrite ?El;
        (split; [lia | intros; discriminate]).
    + unfold lightboxQuiet, lightboxVideos; simpl.
      split; [lia | intros _ v []].
  - unfold lightboxQuiet, lightboxVideos. simpl. rewrite Ec.
    split; [simpl; lia | intros _ v []].
Qed.

Lemma navigateLightbox_quiet (d : JS.num) : Preserves lightboxQuiet (navigateLightbox d).
Proof.
  intros w H. rewrite navigateLightbox_open. apply openLightbox_quiet. exact H.
Qed.

Lemma pauseFirstVideo_quiet (l : list LightboxChild) :
  (List.length (videosOfChildren l) <= 1)%nat ->
  (List.length (videosOfChildren (pauseFirstVideo l)) <= 1)%nat /\
  forall v, In v (videosOfChildren (pauseFirstVideo l)) ->
            v_paused v = true /\ v_canAutoplay v = false.
Proof.
  induction l as [| c l IH]; simpl; intro H.
  - split; [lia | intros v []].
  - destruct c as [v0 | i]; simpl in *.
    + assert (Hl : videosOfChildren l = []).
      { destruct (videosOfChildren l); [reflexivity | simpl in H; lia]. }
      rewrite Hl. split; [simpl; lia |].
      intros v [<- | []]. split; reflexivity.
    + apply IH. exact H.
Qed.

Lemma closeLightbox_quiet variant : Preserves lightboxQuiet (closeLightbox variant).
Proof.
  intros w [H1 H2].
  unfold closeLightbox, bind, get, modify, deref, ret, throw. simpl.
  destruct (lightbox (doc w)) as [a |] eqn:El; simpl;
    [| split; [exact H1 | rewrite El; discriminate]].
  destruct (lightboxContent (doc w)) as [c |] eqn:Ec; simpl.
  - match goal with
    | |- lightboxQuiet (snd (handleVideoAutoplay _ ?w4)) =>
        apply (lightboxQuiet_lightboxOf w4);
          [apply handleVideoAutoplay_lightboxOf |]
    end.
    unfold lightboxQuiet, lightboxVideos in *. simpl. rewrite Ec in H1.
    destruct (pauseFirstVideo_quiet c H1) as [Q1 Q2].
    split; [exact Q1 | intros _; exact Q2].
  - unfold lightboxQuiet, lightboxVideos. simpl. rewrite Ec.
    split; [simpl; lia | intros _ v []].
Qed.

Lemma autoplay_quiet (w : World) :
  lightboxQuiet w ->
  lightboxQuiet
    (upd_doc (fun d =>
       set_lightboxContent
         (option_map (map (fun c =>
            match c with
            | LbVideo v => LbVideo (autoplayStarts v)
            | LbImg i => LbImg i
            end)) (lightboxContent d)) d) w).
Proof.
  intros [H1 H2]. unfold lightboxQuiet, lightboxVideos in *. simpl.
  destruct (lightboxContent (doc w)) as [c |]; simpl;
    [| split; [lia | intros _ v []]].
  fold (videosOfChildren c) in *.
  assert (G : forall l, videosOfChildren (map (fun c0 =>
                match c0 with
                | LbVideo v => LbVideo (autoplayStarts v)
                | LbImg i => LbImg i
                end) l) = map autoplayStarts (videosOfChildren l)).
  { induction l as [| [v | i] l IH]; simpl; [reflexivity | f_equal; exact IH | exact IH]. }
  change (flat_map _ (map _ c)) with (videosOfChildren (map (fun c0 =>
                match c0 with
                | LbVideo v => LbVideo (autoplayStarts v)
                | LbImg i => LbImg i
                end) c)).
  rewrite G, length_map. split; [exact H1 |].
  intros Hcl v Hv. apply in_map_iff in Hv. destruct Hv as [v0 [<- Hv0]].
  destruct (H2 Hcl v0 Hv0) as [Hp Hc].
  unfold autoplayStarts. rewrite Hc, andb_false_r. simpl. split; assumption.
Qed.

Lemma showGallery_lightboxOf : Frame lightboxOf showGallery.
Proof. unfold showGallery. frame. Qed.

Lemma showHero_lightboxOf : Frame lightboxOf showHero.
Proof. unfold showHero. frame. Qed.

Ltac quiet_known :=
  idtac;
  lazymatch goal with
  | |- Preserves _ (closeLightbox _) => apply closeLightbox_quiet
  | |- Preserves _ (navigateLightbox _) => apply navigateLightbox_quiet
  | |- Preserves _ (openLightbox _) => apply openLightbox_quiet
  | |- Preserves _ showGallery =>
      apply (pres_frame _ lightboxOf);
        [apply lightboxQuiet_lightboxOf | apply showGallery_lightboxOf]
  | |- Preserves _ showHero =>
      apply (pres_frame _ lightboxOf);
        [apply lightboxQuiet_lightboxOf | apply showHero_lightboxOf]
  end.

Lemma handle_quiet variant (e : Event) : Preserves lightboxQuiet (handle variant e).
Proof.
  destruct e;
    try (apply (pres_frame _ lightboxOf); [apply lightboxQuiet_lightboxOf |];
         unfold handle, handleTabSwitch, runTimer; solve [frame]).
  - unfold handle. pres quiet_known ltac:(intros ? Hq; exact Hq).
  - unfold handle. pres quiet_known ltac:(intros ? Hq; exact Hq).
  - unfold handle. pres quiet_known ltac:(intros ? Hq; exact Hq).
  - unfold handle. pres quiet_known ltac:(intros ? Hq; exact Hq).
  - unfold handle, handleKeyboard. pres quiet_known ltac:(intros ? Hq; exact Hq).
  - unfold handle. pres quiet_known ltac:(intros ? Hq; exact Hq).
  - unfold handle. apply pres_modify. apply autoplay_quiet.
Qed.

(** With the lightbox closed, at most one video of the document is playing
    after [handleVideoAutoplay]. *)
Lemma handleVideoAutoplay_at_most_one_closed variant (w : World) :
  lightboxQuiet w -> lightbox (doc w) = Some false ->
  (playingCount (exec (handleVideoAutoplay variant) w) <= 1)%nat.
Proof.
  intros [H1 H2] Hcl. unfold playingCount, documentVideos.
  rewrite filter_app, length_app.
  pose proof (handleVideoAutoplay_gallery_at_most_one variant w) as Hg.
  assert (Hl : lightboxVideos (exec (handleVideoAutoplay variant) w) = lightboxVideos w).
  { pose proof (handleVideoAutoplay_lightboxOf variant w) as F.
    unfold lightboxOf in F. injection F as _ Hc.
    unfold lightboxVideos, exec. rewrite Hc. reflexivity. }
  rewrite Hl.
  assert (Hz : filter playing (lightboxVideos w) = []).
  { specialize (H2 Hcl). clear - H2.
    induction (lightboxVideos w) as [| v l IH]; [reflexivity |].
    simpl. unfold playing at 1.
    destruct (H2 v (or_introl eq_refl)) as [-> _]. simpl.
    apply IH. intros v' Hv'. apply H2. right. exact Hv'. }
  rewrite Hz. simpl. lia.
Qed.

(** On a page whose lightbox starts without a video, every reachable state
    is quiet in this sense. *)
Lemma reachable_quiet variant (M : Manifest) (d : Doc) (allowed : bool)
      (layout : Z -> list Slide -> list Slide)
      (w : World) :
  lightboxVideos (load M d allowed layout) = [] ->
  Reachable variant (load M d allowed layout) w ->
  lightboxQuiet w.
Proof.
  intros H [trace <-]. apply pres_run; [apply handle_quiet |].
  unfold lightboxQuiet. rewrite H. split; [simpl; lia | intros _ v []].
Qed.

(** Hence, on such a page and with the lightbox closed, a slide change
    leaves at most one video of the document playing. *)
Lemma slideChange_at_most_one_closed variant (M : Manifest) (d : Doc)
      (allowed : bool) (layout : Z -> list Slide -> list Slide) (w : World) :
  lightboxVideos (load M d allowed layout) = [] ->
  Reachable variant (load M d allowed layout) w ->
  lightbox (doc w) = Some false ->
  (playingCount (exec (handleVideoAutoplay variant) w) <= 1)%nat.
Proof.
  intros H Hr Hcl.
  apply handleVideoAutoplay_at_most_one_closed; [| exact Hcl].
  eapply reachable_quiet; eassumption.
Qed.

(* ================================================================== *)
(** ** The shipped manifests *)

Example MEDIA_DATA_dates_parse :
  validDates (combined MEDIA_DATA) /\ validDates (combined MEDIA_DATA_optimized).
Proof. split; apply validDates_forallb; vm_compute; reflexivity. Qed.

Example MEDIA_DATA_newest_first :
  Sorted (newerFirstBy timeOf) (ALL_MEDIA MEDIA_DATA)
  /\ Sorted (newerFirstBy timeOf) (ALL_MEDIA MEDIA_DATA_optimized).
Proof.
  destruct MEDIA_DATA_dates_parse as [H1 H2].
  split; unfold ALL_MEDIA;
    apply (sort_sorted newestFirst timeOf (fun m => DateJS.valid (date m) = true));
    try (intros x y Hx Hy; apply newestFirst_key; assumption);
    assumption.
Qed.

Example MEDIA_DATA_counts :
  List.length (ALL_MEDIA MEDIA_DATA) = 81%nat
  /\ List.length (filteredMedia (construct (ALL_MEDIA MEDIA_DATA))) = 69%nat
  /\ List.length (filter (fun m => strictEq (type m) (Some "video"))
                    (ALL_MEDIA MEDIA_DATA)) = 12%nat
  /\ option_map src (hd_error (ALL_MEDIA MEDIA_DATA))
     = Some "assets/media/instagram/2025-11-08_12-11-37_UTC_1.jpg".
Proof. repeat split; vm_compute; reflexivity. Qed.

(** The image tab of the shipped catalogue: 69 items, of which the
    optimized controller renders 20 on a phone and all on a desktop, and the
    eager controller all on a phone too. *)
Example shipped_image_tab :
  List.length (slidesOf (exec (renderSlides Optimized) Shipped.phone)) = 20%nat
  /\ List.length (slidesOf (exec (renderSlides Optimized) Shipped.desktop)) = 69%nat
  /\ List.length (slidesOf (exec (renderSlides Eager) Shipped.eagerPhone)) = 69%nat.
Proof. repeat split; vm_compute; reflexivity. Qed.
